(** * Personal library management system: a shallow embedding

    The program under study is [library_management_system.py]: a class
    [Book] holding an in-memory book store, persisted as a JSON array in
    [books.json], with methods to add, read, edit, view, remove, save and
    export books, and a menu loop [main].

    Python values are embedded as follows.
    - A [str] is the list of its Unicode code points ([pystr]).
    - The values that [json.load] can produce are the type [pyval]; a
      [dict] is an association list in insertion order, without duplicate
      keys.  A number is kept as the literal it was read from.
    - A method is a computation in the monad [M]: it threads the program
      state (book store, file system, text printed so far) and either
      returns or raises a Python exception.
    - Text typed by the user at an [input()] call is an argument of the
      method; the prompt of [input()] is evaluated but not recorded.
    - The modules [json] and [csv] of the standard library are embedded
      as executable functions, with the options the program calls them
      with.
    - The other libraries (HTTP client, URL validator, PDF reader, OCR
      engine, DOCX reader) and what Python does with numbers are fields
      of the record [Env].

    Assumptions of the embedding.
    - The file system is a finite map from a path to the text of the
      file.  Opening a file for writing always succeeds; the encoding and
      decoding of text files, directories and permissions are left out.
    - Paths are POSIX paths.
    - The recursion limit of the interpreter is left out. *)

From Stdlib Require Import ZArith NArith List String Ascii Bool Lia.
From Stdlib Require Import DecimalString.
From stdpp Require Import base option list gmap.

Open Scope N_scope.
Open Scope list_scope.

(** ** Strings *)

Abbreviation pystr := (list N).

(** The code points of a literal. *)
Fixpoint py (s : string) : pystr :=
  match s with
  | EmptyString => []
  | String a r => N_of_ascii a :: py r
  end.

(** [' '.join]-style concatenation: [sep.join(parts)]. *)
Fixpoint join (sep : pystr) (parts : list pystr) : pystr :=
  match parts with
  | [] => []
  | [p] => p
  | p :: rest => p ++ sep ++ join sep rest
  end.

(** [str.isspace] on one code point (CPython's [Py_UNICODE_ISSPACE]). *)
Definition isspace (c : N) : bool :=
  ((9 <=? c) && (c <=? 13)) || ((28 <=? c) && (c <=? 32))
  || (c =? 133) || (c =? 160) || (c =? 5760)
  || ((8192 <=? c) && (c <=? 8202))
  || (c =? 8232) || (c =? 8233) || (c =? 8239) || (c =? 8287) || (c =? 12288).

Fixpoint lstrip (s : pystr) : pystr :=
  match s with
  | [] => []
  | c :: r => if isspace c then lstrip r else s
  end.

Definition rstrip (s : pystr) : pystr := rev (lstrip (rev s)).

(** [s.strip()] *)
Definition strip (s : pystr) : pystr := lstrip (rstrip s).

(** [s.endswith(suf)] *)
Definition endswith (s suf : pystr) : bool := bool_decide (suf `suffix_of` s).

(** [str(n)] for a non-negative [int]. *)
Definition str_of_nat (n : nat) : pystr :=
  py (NilZero.string_of_uint (Nat.to_uint n)).

(** [os.path.basename] (POSIX): what follows the last slash. *)
Fixpoint basename (p : pystr) : pystr :=
  match p with
  | [] => []
  | _ :: r => if bool_decide (47 ∈ p) then basename r else p
  end.

(** [os.path.join(a, b)] (POSIX, two components). *)
Definition path_join (a b : pystr) : pystr :=
  if bool_decide (head b = Some 47) then b
  else if bool_decide (a = []) || endswith a [47] then a ++ b
  else a ++ [47] ++ b.

(** ** Values *)

Unset Elimination Schemes.
Inductive pyval : Type :=
| PNone
| PBool (b : bool)
| PNum (lit : pystr)   (* the number a JSON number literal denotes *)
| PStr (s : pystr)
| PList (items : list pyval)
| PDict (entries : list (pystr * pyval)).
Set Elimination Schemes.

Section pyval_ind.
Variable P : pyval -> Prop.
Hypothesis HNone : P PNone.
Hypothesis HBool : forall b, P (PBool b).
Hypothesis HNum : forall lit, P (PNum lit).
Hypothesis HStr : forall s, P (PStr s).
Hypothesis HList : forall items, Forall P items -> P (PList items).
Hypothesis HDict :
  forall entries, Forall (fun kv => P (snd kv)) entries -> P (PDict entries).

Fixpoint pyval_ind (v : pyval) : P v :=
  match v with
  | PNone => HNone
  | PBool b => HBool b
  | PNum lit => HNum lit
  | PStr s => HStr s
  | PList items =>
      HList items
        ((fix all (l : list pyval) : Forall P l :=
            match l with
            | [] => @List.Forall_nil _ P
            | x :: r => @List.Forall_cons _ P x r (pyval_ind x) (all r)
            end) items)
  | PDict entries =>
      HDict entries
        ((fix all (l : list (pystr * pyval)) : Forall (fun kv => P (snd kv)) l :=
            match l with
            | [] => @List.Forall_nil _ _
            | kv :: r => @List.Forall_cons _ _ kv r (pyval_ind (snd kv)) (all r)
            end) entries)
  end.
End pyval_ind.

(** Structural equality of values.  On the comparisons the program makes
    (a value against a [str], or a value against itself) it agrees with
    Python's [==]. *)
Fixpoint py_eq (a b : pyval) : bool :=
  match a, b with
  | PNone, PNone => true
  | PBool x, PBool y => Bool.eqb x y
  | PNum x, PNum y => bool_decide (x = y)
  | PStr x, PStr y => bool_decide (x = y)
  | PList xs, PList ys =>
      (fix go (xs ys : list pyval) : bool :=
         match xs, ys with
         | [], [] => true
         | x :: xs', y :: ys' => py_eq x y && go xs' ys'
         | _, _ => false
         end) xs ys
  | PDict xs, PDict ys =>
      (fix go (xs ys : list (pystr * pyval)) : bool :=
         match xs, ys with
         | [], [] => true
         | (k, x) :: xs', (k', y) :: ys' =>
             bool_decide (k = k') && py_eq x y && go xs' ys'
         | _, _ => false
         end) xs ys
  | _, _ => false
  end.

(** [type(v).__name__] *)
Definition is_float_literal (lit : pystr) : bool :=
  bool_decide (46 ∈ lit) || bool_decide (101 ∈ lit) || bool_decide (69 ∈ lit)
  || bool_decide (78 ∈ lit) || bool_decide (73 ∈ lit).

Definition type_name (v : pyval) : pystr :=
  match v with
  | PNone => py "NoneType"
  | PBool _ => py "bool"
  | PNum lit => if is_float_literal lit then py "float" else py "int"
  | PStr _ => py "str"
  | PList _ => py "list"
  | PDict _ => py "dict"
  end.

(** Dictionary access on an association list. *)
Fixpoint dict_get (k : pystr) (d : list (pystr * pyval)) : option pyval :=
  match d with
  | [] => None
  | (k', v) :: r => if bool_decide (k = k') then Some v else dict_get k r
  end.

(** [d[k] = v]: replace in place, or append a new key at the end. *)
Fixpoint dict_set (k : pystr) (v : pyval) (d : list (pystr * pyval))
  : list (pystr * pyval) :=
  match d with
  | [] => [(k, v)]
  | (k', v') :: r =>
      if bool_decide (k = k') then (k', v) :: r else (k', v') :: dict_set k v r
  end.

(** ** The [json] module

    [json.dump(obj, fp, indent=4)] with the default [ensure_ascii=True]
    and [json.load(fp)] with the default strict decoder.  A number is
    carried as the literal it was read from; the encoder takes the text
    it writes for a number as a parameter. *)

Definition hexdigit (d : N) : N := if d <? 10 then 48 + d else 87 + d.

(** ['{0:04x}'.format(n)] for [n < 0x10000]. *)
Definition hex4 (n : N) : pystr :=
  [hexdigit (n / 4096 mod 16); hexdigit (n / 256 mod 16);
   hexdigit (n / 16 mod 16); hexdigit (n mod 16)].

(** [s1 = 0xd800 | ((n >> 10) & 0x3ff)] and [s2 = 0xdc00 | (n & 0x3ff)]. *)
Definition lead_surrogate (n : N) : N :=
  N.lor 0xd800 (N.land (N.shiftr n 10) 0x3ff).
Definition trail_surrogate (n : N) : N := N.lor 0xdc00 (N.land n 0x3ff).

(** One character through [ESCAPE_ASCII] and [ESCAPE_DCT]. *)
Definition encode_char (c : N) : pystr :=
  if c =? 92 then [92; 92]
  else if c =? 34 then [92; 34]
  else if c =? 8 then [92; 98]
  else if c =? 12 then [92; 102]
  else if c =? 10 then [92; 110]
  else if c =? 13 then [92; 114]
  else if c =? 9 then [92; 116]
  else if (32 <=? c) && (c <=? 126) then [c]
  else if c <? 0x10000 then [92; 117] ++ hex4 c
  else
    let n := c - 0x10000 in
    let s1 := lead_surrogate n in
    let s2 := trail_surrogate n in
    [92; 117] ++ hex4 s1 ++ [92; 117] ++ hex4 s2.

Definition encode_basestring_ascii (s : pystr) : pystr :=
  [34] ++ flat_map encode_char s ++ [34].

Definition newline_indent (level : nat) : pystr :=
  10 :: repeat 32 (4 * level)%nat.

Section Encoder.
Variable num_text : pystr -> pystr.

(** [_iterencode(o, level)] with [indent=4], item separator [","] and
    key separator [": "]. *)
Fixpoint iterencode (level : nat) (o : pyval) : pystr :=
  match o with
  | PNone => py "null"
  | PBool true => py "true"
  | PBool false => py "false"
  | PNum lit => num_text lit
  | PStr s => encode_basestring_ascii s
  | PList [] => py "[]"
  | PList items =>
      [91] ++ newline_indent (S level)
      ++ join ([44] ++ newline_indent (S level))
           (map (iterencode (S level)) items)
      ++ newline_indent level ++ [93]
  | PDict [] => py "{}"
  | PDict entries =>
      [123] ++ newline_indent (S level)
      ++ join ([44] ++ newline_indent (S level))
           (map (fun kv => encode_basestring_ascii (fst kv) ++ py ": "
                           ++ iterencode (S level) (snd kv)) entries)
      ++ newline_indent level ++ [125]
  end.

Definition json_dumps (o : pyval) : pystr := iterencode 0 o.
End Encoder.

(** *** Decoder *)

Definition is_ws (c : N) : bool :=
  (c =? 32) || (c =? 9) || (c =? 10) || (c =? 13).

Fixpoint skip_ws (s : pystr) : pystr :=
  match s with
  | [] => []
  | c :: r => if is_ws c then skip_ws r else s
  end.

Definition hexval (c : N) : option N :=
  if (48 <=? c) && (c <=? 57) then Some (c - 48)
  else if (97 <=? c) && (c <=? 102) then Some (c - 87)
  else if (65 <=? c) && (c <=? 70) then Some (c - 55)
  else None.

(** [_decode_uXXXX]: four hexadecimal digits. *)
Definition decode_hex4 (h1 h2 h3 h4 : N) : option N :=
  match hexval h1, hexval h2, hexval h3, hexval h4 with
  | Some a, Some b, Some c, Some d => Some (a * 4096 + b * 256 + c * 16 + d)
  | _, _, _, _ => None
  end.

(** The [BACKSLASH] table. *)
Definition unescape (e : N) : option N :=
  if e =? 34 then Some 34
  else if e =? 92 then Some 92
  else if e =? 47 then Some 47
  else if e =? 98 then Some 8
  else if e =? 102 then Some 12
  else if e =? 110 then Some 10
  else if e =? 114 then Some 13
  else if e =? 116 then Some 9
  else None.

Definition is_high_surrogate (u : N) : bool := (0xd800 <=? u) && (u <=? 0xdbff).
Definition is_low_surrogate (u : N) : bool := (0xdc00 <=? u) && (u <=? 0xdfff).

Definition join_surrogates (u u2 : N) : N :=
  0x10000 + N.lor (N.shiftl (u - 0xd800) 10) (u2 - 0xdc00).

Definition scanned (c : N) (r : option (pystr * pystr)) : option (pystr * pystr) :=
  match r with
  | Some (str, rest) => Some (c :: str, rest)
  | None => None
  end.

(** [scanstring(s, end, strict=True)], started after the opening quote:
    the string and what follows its closing quote, or [None] for a
    [JSONDecodeError]. *)
Fixpoint scanstring (s : pystr) : option (pystr * pystr) :=
  match s with
  | [] => None
  | c :: r =>
      if c =? 34 then Some ([], r)
      else if c =? 92 then
        match r with
        | [] => None
        | e :: r1 =>
            if e =? 117 then
              match r1 with
              | h1 :: h2 :: h3 :: h4 :: r2 =>
                  match decode_hex4 h1 h2 h3 h4 with
                  | None => None
                  | Some uni =>
                      if is_high_surrogate uni then
                        match r2 with
                        | b :: u :: t =>
                            if (b =? 92) && (u =? 117) then
                              match t with
                              | g1 :: g2 :: g3 :: g4 :: r3 =>
                                  match decode_hex4 g1 g2 g3 g4 with
                                  | None => None
                                  | Some uni2 =>
                                      if is_low_surrogate uni2
                                      then scanned (join_surrogates uni uni2)
                                             (scanstring r3)
                                      else scanned uni (scanstring r2)
                                  end
                              | _ => None
                              end
                            else scanned uni (scanstring r2)
                        | _ => scanned uni (scanstring r2)
                        end
                      else scanned uni (scanstring r2)
                  end
              | _ => None
              end
            else
              match unescape e with
              | Some ch => scanned ch (scanstring r1)
              | None => None
              end
        end
      else if c <? 32 then None
      else scanned c (scanstring r)
  end.

Definition is_digit (c : N) : bool := (48 <=? c) && (c <=? 57).

Fixpoint span_digits (s : pystr) : pystr * pystr :=
  match s with
  | [] => ([], [])
  | c :: r =>
      if is_digit c then let '(d, rest) := span_digits r in (c :: d, rest)
      else ([], s)
  end.

(** [NUMBER_RE.match]: the literal matched and what follows it. *)
Definition match_number (s : pystr) : option (pystr * pystr) :=
  let '(sign, s1) :=
    match s with
    | c :: r => if c =? 45 then ([45], r) else ([], s)
    | [] => ([], s)
    end in
  match s1 with
  | [] => None
  | c :: r =>
      if is_digit c then
        let '(int, rest) :=
          if c =? 48 then (sign ++ [48], r)
          else let '(d, rest) := span_digits r in (sign ++ c :: d, rest) in
        let '(frac, rest1) :=
          match rest with
          | p :: r1 =>
              if p =? 46 then
                match span_digits r1 with
                | ([], _) => ([], rest)
                | (d, r2) => (46 :: d, r2)
                end
              else ([], rest)
          | [] => ([], rest)
          end in
        let '(exp, rest2) :=
          match rest1 with
          | e :: r1 =>
              if (e =? 101) || (e =? 69) then
                let '(sg, r2) :=
                  match r1 with
                  | g :: r2 => if (g =? 43) || (g =? 45) then ([g], r2) else ([], r1)
                  | [] => ([], r1)
                  end in
                match span_digits r2 with
                | ([], _) => ([], rest1)
                | (d, r3) => (e :: sg ++ d, r3)
                end
              else ([], rest1)
          | [] => ([], rest1)
          end in
        Some (int ++ frac ++ exp, rest2)
      else None
  end.

(** [s[idx:idx+len(w)] == w]: the rest of the input after the word. *)
Fixpoint after_word (w s : pystr) : option pystr :=
  match w, s with
  | [], _ => Some s
  | a :: w', c :: r => if a =? c then after_word w' r else None
  | _ :: _, [] => None
  end.

(** [dict(pairs)]: a later pair for a key replaces the value of the earlier. *)
Definition dict_of_pairs (pairs : list (pystr * pyval)) : list (pystr * pyval) :=
  fold_left (fun d kv => dict_set (fst kv) (snd kv) d) pairs [].

(** [scan_once], [JSONArray] and [JSONObject].  The recursion is bounded
    by [fuel]; [parse_array] and [parse_object] are the [while True]
    loops of the two functions, entered at the first element. *)
Fixpoint scan_once (fuel : nat) (s : pystr) : option (pyval * pystr) :=
  match fuel with
  | O => None
  | S fuel =>
      match s with
      | [] => None
      | c :: r =>
          if c =? 34 then
            match scanstring r with
            | Some (str, rest) => Some (PStr str, rest)
            | None => None
            end
          else if c =? 123 then
            let r1 := skip_ws r in
            match r1 with
            | q :: r2 =>
                if q =? 125 then Some (PDict [], r2)
                else if q =? 34 then
                  match parse_object fuel r2 with
                  | Some (pairs, rest) => Some (PDict (dict_of_pairs pairs), rest)
                  | None => None
                  end
                else None
            | [] => None
            end
          else if c =? 91 then
            let r1 := skip_ws r in
            match r1 with
            | q :: r2 =>
                if q =? 93 then Some (PList [], r2)
                else
                  match parse_array fuel r1 with
                  | Some (values, rest) => Some (PList values, rest)
                  | None => None
                  end
            | [] => None
            end
          else
            match after_word (py "null") s, after_word (py "true") s,
                  after_word (py "false") s with
            | Some rest, _, _ => Some (PNone, rest)
            | None, Some rest, _ => Some (PBool true, rest)
            | None, None, Some rest => Some (PBool false, rest)
            | None, None, None =>
                match match_number s with
                | Some (lit, rest) => Some (PNum lit, rest)
                | None =>
                    match after_word (py "NaN") s, after_word (py "Infinity") s,
                          after_word (py "-Infinity") s with
                    | Some rest, _, _ => Some (PNum (py "NaN"), rest)
                    | None, Some rest, _ => Some (PNum (py "Infinity"), rest)
                    | None, None, Some rest => Some (PNum (py "-Infinity"), rest)
                    | None, None, None => None
                    end
                end
            end
      end
  end
with parse_array (fuel : nat) (s : pystr) : option (list pyval * pystr) :=
  match fuel with
  | O => None
  | S fuel =>
      match scan_once fuel s with
      | None => None
      | Some (value, rest) =>
          match skip_ws rest with
          | [] => None
          | c :: r =>
              if c =? 93 then Some ([value], r)
              else if c =? 44 then
                match parse_array fuel (skip_ws r) with
                | Some (values, rest') => Some (value :: values, rest')
                | None => None
                end
              else None
          end
      end
  end
with parse_object (fuel : nat) (s : pystr) : option (list (pystr * pyval) * pystr) :=
  match fuel with
  | O => None
  | S fuel =>
      match scanstring s with
      | None => None
      | Some (key, rest) =>
          match skip_ws rest with
          | [] => None
          | c :: r =>
              if c =? 58 then
                match scan_once fuel (skip_ws r) with
                | None => None
                | Some (value, rest1) =>
                    match skip_ws rest1 with
                    | [] => None
                    | d :: r1 =>
                        if d =? 125 then Some ([(key, value)], r1)
                        else if d =? 44 then
                          match skip_ws r1 with
                          | q :: r2 =>
                              if q =? 34 then
                                match parse_object fuel r2 with
                                | Some (pairs, rest') =>
                                    Some ((key, value) :: pairs, rest')
                                | None => None
                                end
                              else None
                          | [] => None
                          end
                        else None
                    end
                end
              else None
          end
      end
  end.

(** [json.loads(s)]: [None] stands for a [JSONDecodeError]. *)
Definition json_loads (s : pystr) : option pyval :=
  match scan_once (S (length s)) (skip_ws s) with
  | Some (obj, rest) =>
      match skip_ws rest with
      | [] => Some obj
      | _ :: _ => None
      end
  | None => None
  end.

(** A successful run of the decoder consumes input, and succeeds the same
    with any fuel that is at least the number of characters consumed. *)
Definition fuel_enough {A} (parse : nat -> pystr -> option (A * pystr))
    (fuel : nat) : Prop :=
  forall s a rest,
    parse fuel s = Some (a, rest) ->
    (length rest < length s)%nat
    /\ forall fuel', (length s - length rest <= fuel')%nat ->
                     parse fuel' s = Some (a, rest).

(** ** The [csv] module

    [csv.DictWriter] over the default [excel] dialect: comma delimiter,
    double-quote quoting, [QUOTE_MINIMAL], line terminator [\r\n]. *)

Definition csv_special (c : N) : bool :=
  (c =? 44) || (c =? 34) || (c =? 13) || (c =? 10).

Definition csv_field (s : pystr) : pystr :=
  if existsb csv_special s
  then [34] ++ flat_map (fun c => if c =? 34 then [34; 34] else [c]) s ++ [34]
  else s.

(** The text [writer.writerow(fields)] writes. *)
Definition csv_row (fields : list pystr) : pystr :=
  join [44] (map csv_field fields) ++ [13; 10].

(** ** Program state, exceptions and the method monad *)

(** Exceptions that leave a method. *)
Inductive exception :=
| FileNotFoundError
| JSONDecodeError
| KeyError (key : pystr)
| TypeError
| AttributeError
| IndexError
| RequestException
| EOFError.

(** What the handlers of [read_book] distinguish in an exception [e]
    raised inside its [try] block: its class, and [str(e)]. *)
Inductive caught :=
| CaughtFileNotFound
| CaughtException (str_e : pystr).

Inductive result (E A : Type) :=
| Return (a : A)
| Raise (e : E).
Arguments Return {E A} a.
Arguments Raise {E A} e.

(** The file system maps a path to the text of the file; [stdout] is the
    list of the texts given to [print], oldest first. *)
Record State := mkState {
  books_store : pyval;
  fs : gmap pystr pystr;
  stdout : list pystr
}.

Definition M (E A : Type) : Type := State -> result E A * State.

Definition ret {E A} (a : A) : M E A := fun st => (Return a, st).

Definition bind {E A B} (m : M E A) (k : A -> M E B) : M E B :=
  fun st =>
    match m st with
    | (Return a, st') => k a st'
    | (Raise e, st') => (Raise e, st')
    end.

Definition raise {E A} (e : E) : M E A := fun st => (Raise e, st).

(** [try: m except ... as e: h e]: the handler re-raises what its
    [except] clauses do not name. *)
Definition try_except {E E' A} (m : M E A) (h : E -> M E' A) : M E' A :=
  fun st =>
    match m st with
    | (Return a, st') => (Return a, st')
    | (Raise e, st') => h e st'
    end.

Declare Scope monad_scope.
Delimit Scope monad_scope with monad.
Notation "x <- m ;; k" := (bind m (fun x => k))
  (at level 100, m at next level, right associativity) : monad_scope.
Notation "m ;; k" := (bind m (fun _ => k))
  (at level 100, right associativity) : monad_scope.
Open Scope monad_scope.

Definition lift_result {E A} (r : result E A) : M E A := fun st => (r, st).

Definition get_store {E} : M E pyval := fun st => (Return (books_store st), st).

Definition set_store {E} (v : pyval) : M E unit :=
  fun st => (Return tt, mkState v (fs st) (stdout st)).

(** [print(text)] *)
Definition print {E} (text : pystr) : M E unit :=
  fun st => (Return tt, mkState (books_store st) (fs st) (stdout st ++ [text])).

(** [open(path, 'r')] followed by reading the whole file. *)
Definition read_file (path : pystr) : M exception pystr :=
  fun st =>
    match fs st !! path with
    | Some text => (Return text, st)
    | None => (Raise FileNotFoundError, st)
    end.

(** [open(path, 'w')]: the file is created or truncated. *)
Definition open_w {E} (path : pystr) : M E unit :=
  fun st => (Return tt, mkState (books_store st) (<[path := []]> (fs st)) (stdout st)).

(** [file.write(text)] on a file opened by [open_w]. *)
Definition file_write {E} (path text : pystr) : M E unit :=
  fun st =>
    (Return tt,
     mkState (books_store st)
       (<[path := default [] (fs st !! path) ++ text]> (fs st)) (stdout st)).

(** The state of the file at [path], for the libraries that open it. *)
Definition stat {E} (path : pystr) : M E (option pystr) :=
  fun st => (Return (fs st !! path), st).

(** ** The libraries *)

Record Response := { status_code : Z; content : pystr }.
Record Pixmap := { width : Z; height : Z; samples : pystr }.
Record Image := { mode : pystr; size : Z * Z; data : pystr }.
Record Page := { get_text : pystr; get_pixmap : Pixmap }.

Record Env := {
  (** the text [json.dump] writes for the number a literal denotes *)
  num_json : pystr -> pystr;
  (** [repr] of that number *)
  num_repr : pystr -> pystr;
  (** [bool] of that number *)
  num_bool : pystr -> bool;
  (** [str] of a [list] or a [dict] *)
  container_str : pyval -> pystr;
  (** [validators.url(url)] is truthy *)
  validators_url : pystr -> bool;
  (** [requests.get(url)]; [None] when it raises *)
  requests_get : pystr -> option Response;
  (** [fitz.open(path)], from the file at the path: the pages *)
  fitz_open : pystr -> option pystr -> result caught (list Page);
  (** [pytesseract.image_to_string(img)] *)
  image_to_string : Image -> result caught pystr;
  (** [docx.Document(path)], from the file at the path: the paragraph texts *)
  docx_Document : pystr -> option pystr -> result caught (list pystr)
}.

(** [Image.frombytes(mode, size, data)] *)
Definition Image_frombytes (mode : pystr) (size : Z * Z) (data : pystr) : Image :=
  {| mode := mode; size := size; data := data |}.

(** ** Operations on values that can raise *)

(** [for x in v]: the items the loop visits. *)
Definition py_iter (v : pyval) : result exception (list pyval) :=
  match v with
  | PList items => Return items
  | PStr s => Return (map (fun c => PStr [c]) s)
  | PDict entries => Return (map (fun kv => PStr (fst kv)) entries)
  | PNone | PBool _ | PNum _ => Raise TypeError
  end.

(** [v[key]] for a [str] key. *)
Definition getitem (v : pyval) (key : pystr) : result exception pyval :=
  match v with
  | PDict entries =>
      match dict_get key entries with
      | Some x => Return x
      | None => Raise (KeyError key)
      end
  | _ => Raise TypeError
  end.

(** [v[key] = x] for a [str] key. *)
Definition setitem (v : pyval) (key : pystr) (x : pyval) : result exception pyval :=
  match v with
  | PDict entries => Return (PDict (dict_set key x entries))
  | _ => Raise TypeError
  end.

(** [del v[i]] *)
Definition delitem (v : pyval) (i : nat) : result exception pyval :=
  match v with
  | PList items =>
      if (i <? length items)%nat then Return (PList (delete i items))
      else Raise IndexError
  | _ => Raise TypeError
  end.

(** [v.append(x)] *)
Definition append (v : pyval) (x : pyval) : result exception pyval :=
  match v with
  | PList items => Return (PList (items ++ [x]))
  | _ => Raise AttributeError
  end.

(** [x or y] for a [str] [x]. *)
Definition str_or (x : pystr) (y : pyval) : pyval :=
  match x with
  | [] => y
  | _ :: _ => PStr x
  end.

(** ** The class [Book] *)

Definition filename : pystr := py "books.json".
Definition books_directory : pystr := py "books".
Definition fieldnames : list pystr :=
  [py "title"; py "author"; py "year"; py "file_path"].

(** [json.load(fp)] on the text read from the file. *)
Definition json_load (text : pystr) : M exception pyval :=
  match json_loads text with
  | Some v => ret v
  | None => raise JSONDecodeError
  end.

Section Book.
Variable env : Env.

(** [str(v)] *)
Definition py_str (v : pyval) : pystr :=
  match v with
  | PNone => py "None"
  | PBool true => py "True"
  | PBool false => py "False"
  | PNum lit => num_repr env lit
  | PStr s => s
  | PList _ | PDict _ => container_str env v
  end.

(** [bool(v)] *)
Definition truthy (v : pyval) : bool :=
  match v with
  | PNone => false
  | PBool b => b
  | PNum lit => num_bool env lit
  | PStr s => negb (bool_decide (s = []))
  | PList items => negb (bool_decide (items = []))
  | PDict entries => negb (bool_decide (entries = []))
  end.

(** The text the [csv] writer gives a value. *)
Definition csv_str (v : pyval) : pystr :=
  match v with
  | PNone => []
  | _ => py_str v
  end.

Definition load_books : M exception unit :=
  try_except
    (b <- read_file filename ;;
     try_except
       (v <- json_load b ;;
        set_store v ;;
        print (py "Books loaded successfully!"))
       (fun e =>
          match e with
          | JSONDecodeError =>
              print (py "Starting with an empty book store." ++ [10]) ;;
              set_store (PList [])
          | _ => raise e
          end))
    (fun e =>
       match e with
       | FileNotFoundError =>
           print (py "Starting with an empty book store." ++ [10]) ;;
           set_store (PList [])
       | _ => raise e
       end).

(** [__init__]; [os.makedirs] leaves no trace in the flat file system. *)
Definition init : M exception unit :=
  set_store (PList []) ;;
  load_books.

Definition add_books (title author publication_date book_url : pystr)
  : M exception unit :=
  if negb (validators_url env book_url) then
    print (py "Invalid URL. Please enter a valid URL.")
  else
    match requests_get env book_url with
    | None => raise RequestException
    | Some response =>
        if (status_code response =? 200)%Z then
          let file_name := path_join books_directory (basename book_url) in
          open_w file_name ;;
          file_write file_name (content response) ;;
          print (py "Book downloaded and saved as '" ++ file_name ++ py "'") ;;
          let new_book :=
            PDict [(py "title", PStr title);
                   (py "author", PStr author);
                   (py "year", PStr publication_date);
                   (py "file_path", PStr file_name)] in
          store <- get_store ;;
          store' <- lift_result (append store new_book) ;;
          set_store store' ;;
          title' <- lift_result (getitem new_book (py "title")) ;;
          print (py "You have successfully added '" ++ py_str title'
                 ++ py "' to your Library")
        else
          print (py "Failed to download the book.")
    end.

(** One iteration of the page loop of [read_book]: the text of the page. *)
Definition page_text (page : Page) : result caught pystr :=
  let text := get_text page in
  if bool_decide (strip text = []) then
    let pix := get_pixmap page in
    let img := Image_frombytes (py "RGB") (width pix, height pix) (samples pix) in
    image_to_string env img
  else Return text.

(** The page loop: [extracted_text += text] for each page in order. *)
Fixpoint extract_pages (pages : list Page) (extracted_text : pystr)
  : result caught pystr :=
  match pages with
  | [] => Return extracted_text
  | page :: rest =>
      match page_text page with
      | Return text => extract_pages rest (extracted_text ++ text)
      | Raise e => Raise e
      end
  end.

(** The body of the [try] statement of [read_book]. *)
Definition read_book_try (title : pystr) (file_path : pyval) : M caught unit :=
  match file_path with
  | PStr path =>
      if endswith path (py ".pdf") then
        f <- stat path ;;
        pdf_file <- lift_result (fitz_open env path f) ;;
        let num_pages := length pdf_file in
        print (py "Reading " ++ title ++ py ": " ++ str_of_nat num_pages
               ++ py " pages available." ++ [10]) ;;
        extracted_text <- lift_result (extract_pages pdf_file []) ;;
        print extracted_text ;;
        open_w (title ++ py ".txt") ;;
        file_write (title ++ py ".txt") extracted_text
      else if endswith path (py ".docx") then
        f <- stat path ;;
        doc <- lift_result (docx_Document env path f) ;;
        let extracted_text := join [10] doc in
        print extracted_text ;;
        open_w (title ++ py ".txt") ;;
        file_write (title ++ py ".txt") extracted_text
      else
        print (py "Unsupported file format for '" ++ title ++ py "'.")
  | _ =>
      raise (CaughtException
               (py "'" ++ type_name file_path
                ++ py "' object has no attribute 'endswith'"))
  end.

(** The [try] statement of [read_book] with its two handlers. *)
Definition read_book_found (title : pystr) (file_path : pyval) : M exception unit :=
  try_except (read_book_try title file_path)
    (fun e =>
       match e with
       | CaughtFileNotFound =>
           print (py "Book file '" ++ py_str file_path ++ py "' not found.")
       | CaughtException str_e =>
           print (py "An error occurred: " ++ str_e)
       end).

Fixpoint read_book_loop (title : pystr) (items : list pyval) : M exception unit :=
  match items with
  | [] => print (py "Book titled '" ++ title ++ py "' not found in the store.")
  | book :: rest =>
      t <- lift_result (getitem book (py "title")) ;;
      if py_eq t (PStr title) then
        file_path <- lift_result (getitem book (py "file_path")) ;;
        read_book_found title file_path
      else read_book_loop title rest
  end.

Definition read_book (title : pystr) : M exception unit :=
  store <- get_store ;;
  items <- lift_result (py_iter store) ;;
  read_book_loop title items.

(** [if new != book[key]: book[key] = new] *)
Definition assign_if_changed (book : pyval) (key : pystr) (new : pyval)
  : M exception pyval :=
  cur <- lift_result (getitem book key) ;;
  if negb (py_eq new cur) then lift_result (setitem book key new)
  else ret book.

(** The loop of [edit_book].  [book] is the object at index [i] of the
    list [all]; its assignments are written back to the store. *)
Fixpoint edit_book_loop (edit in_title in_author in_date in_path : pystr)
    (all : list pyval) (i : nat) (items : list pyval) : M exception unit :=
  match items with
  | [] => print (py "Book title not found.")
  | book :: rest =>
      t <- lift_result (getitem book (py "title")) ;;
      if py_eq (PStr edit) t then
        cur_title <- lift_result (getitem book (py "title")) ;;
        let new_title := str_or (strip in_title) cur_title in
        cur_author <- lift_result (getitem book (py "author")) ;;
        let new_author := str_or (strip in_author) cur_author in
        cur_year <- lift_result (getitem book (py "year")) ;;
        let new_publication_date := str_or (strip in_date) cur_year in
        cur_path <- lift_result (getitem book (py "file_path")) ;;
        let new_file_path := str_or (strip in_path) cur_path in
        book <- assign_if_changed book (py "title") new_title ;;
        book <- assign_if_changed book (py "author") new_author ;;
        book <- assign_if_changed book (py "year") new_publication_date ;;
        book <- assign_if_changed book (py "file_path") new_file_path ;;
        set_store (PList (<[i := book]> all)) ;;
        print (py "Book details updated successfully!")
      else edit_book_loop edit in_title in_author in_date in_path all (S i) rest
  end.

Definition edit_book (edit in_title in_author in_date in_path : pystr)
  : M exception unit :=
  store <- get_store ;;
  items <- lift_result (py_iter store) ;;
  edit_book_loop edit in_title in_author in_date in_path items 0 items.

Definition save_books : M exception unit :=
  store <- get_store ;;
  open_w filename ;;
  file_write filename (json_dumps (num_json env) store) ;;
  print (py "Books saved successfully!").

Fixpoint remove_book_loop (remove_book : pystr) (i : nat) (items : list pyval)
  : M exception unit :=
  match items with
  | [] => print (py "Book with title '" ++ remove_book ++ py "' not found.")
  | book :: rest =>
      t <- lift_result (getitem book (py "title")) ;;
      if py_eq (PStr remove_book) t then
        store <- get_store ;;
        store' <- lift_result (delitem store i) ;;
        set_store store' ;;
        print (py "Book '" ++ remove_book ++ py "' deleted successfully!")
      else remove_book_loop remove_book (S i) rest
  end.

Definition remove_book (remove_book : pystr) : M exception unit :=
  store <- get_store ;;
  items <- lift_result (py_iter store) ;;
  remove_book_loop remove_book 0 items.

(** [{field: book[field] for field in writer.fieldnames}], as the values
    in the order of the field names. *)
Fixpoint row_values (book : pyval) (fields : list pystr)
  : result exception (list pyval) :=
  match fields with
  | [] => Return []
  | field :: rest =>
      match getitem book field with
      | Raise e => Raise e
      | Return x =>
          match row_values book rest with
          | Raise e => Raise e
          | Return xs => Return (x :: xs)
          end
      end
  end.

Fixpoint export_rows (csv_filename : pystr) (items : list pyval)
  : M exception unit :=
  match items with
  | [] => ret tt
  | book :: rest =>
      row <- lift_result (row_values book fieldnames) ;;
      file_write csv_filename (csv_row (map csv_str row)) ;;
      export_rows csv_filename rest
  end.

Definition export_as_csv (csv_filename : pystr) : M exception unit :=
  json_file <- read_file filename ;;
  books_store <- json_load json_file ;;
  open_w csv_filename ;;
  file_write csv_filename (csv_row fieldnames) ;;
  items <- lift_result (py_iter books_store) ;;
  export_rows csv_filename items ;;
  print (py "Books exported to CSV file successfully!").

Fixpoint view_books_loop (i : nat) (items : list pyval) : M exception unit :=
  match items with
  | [] => ret tt
  | book :: rest =>
      t <- lift_result (getitem book (py "title")) ;;
      a <- lift_result (getitem book (py "author")) ;;
      y <- lift_result (getitem book (py "year")) ;;
      f <- lift_result (getitem book (py "file_path")) ;;
      print (str_of_nat i ++ py ". Title: " ++ py_str t ++ [10]
             ++ py " Author: " ++ py_str a ++ [10]
             ++ py " Publication Date: " ++ py_str y ++ [10]
             ++ py " File Path: " ++ py_str f ++ py " " ++ [10]) ;;
      view_books_loop (S i) rest
  end.

Definition view_books : M exception unit :=
  store <- get_store ;;
  if negb (truthy store) then print (py "No books recorded." ++ [10])
  else
    items <- lift_result (py_iter store) ;;
    view_books_loop 1 items.

(** What the user answers at the menu of [main], with the text typed at
    the prompts of the method chosen. *)
Inductive choice :=
| AddBook (title author publication_date book_url : pystr)
| EditBook (edit in_title in_author in_date in_path : pystr)
| ViewBooks
| DeleteBook (remove_book : pystr)
| SaveBooks
| ExportCsv
| ReadBook (title : pystr)
| Exit
| InvalidChoice.

Definition print_menu : M exception unit :=
  print (py "Library Management System") ;;
  print (py "*************************") ;;
  print (py "1. Add a Book") ;;
  print (py "2. Edit Book") ;;
  print (py "3. View Books") ;;
  print (py "4. Delete Book") ;;
  print (py "5. Save Books") ;;
  print (py "6. Export to CSV") ;;
  print (py "7. Read Book") ;;
  print (py "8. Exit").

(** The branch of [main] for one choice. *)
Definition dispatch (c : choice) : M exception unit :=
  match c with
  | AddBook t a d u => add_books t a d u
  | EditBook e t a d p => edit_book e t a d p
  | ViewBooks => view_books
  | DeleteBook t => remove_book t
  | SaveBooks => save_books
  | ExportCsv => export_as_csv (py "books.csv")
  | ReadBook t => read_book t
  | Exit => save_books ;; print (py "Exiting...")
  | InvalidChoice =>
      print (py "Invalid choice. Please choose a valid option." ++ [10])
  end.

(** The [while True] loop of [main] over the answers of the user; when
    they run out, [input] raises [EOFError]. *)
Fixpoint main_loop (answers : list choice) : M exception unit :=
  match answers with
  | [] => print_menu ;; raise EOFError
  | c :: rest =>
      print_menu ;;
      dispatch c ;;
      match c with
      | Exit => ret tt
      | _ => main_loop rest
      end
  end.

Definition main (answers : list choice) : M exception unit :=
  init ;;
  main_loop answers.

End Book.

(** ** Book records

    The records of the specification: a mapping with the four string
    fields, as [add_books] builds it. *)

Record BookRecord := mkBook {
  title : pystr;
  author : pystr;
  year : pystr;
  file_path : pystr
}.

Definition record_dict (b : BookRecord) : pyval :=
  PDict [(py "title", PStr (title b));
         (py "author", PStr (author b));
         (py "year", PStr (year b));
         (py "file_path", PStr (file_path b))].

Definition store_of (books : list BookRecord) : pyval :=
  PList (map record_dict books).

(** An input that is empty or only whitespace. *)
Definition blank (s : pystr) : bool := forallb isspace s.

(** The value of a field after [edit_book], from its current value and
    the text typed at its prompt. *)
Definition edited_field (cur inp : pystr) : pystr :=
  if blank inp then cur else strip inp.

Definition edited (b : BookRecord) (in_title in_author in_date in_path : pystr)
  : BookRecord :=
  mkBook (edited_field (title b) in_title) (edited_field (author b) in_author)
         (edited_field (year b) in_date) (edited_field (file_path b) in_path).

(** The image [read_book] gives the OCR engine for a page. *)
Definition page_image (page : Page) : Image :=
  Image_frombytes (py "RGB")
    (width (get_pixmap page), height (get_pixmap page)) (samples (get_pixmap page)).

(** A Python [str]: every code point is below [0x110000]. *)
Definition is_str (s : pystr) : bool := forallb (fun c => c <? 0x110000) s.

(** No high surrogate code point is directly followed by a low one. *)
Fixpoint no_surrogate_pair (s : pystr) : bool :=
  match s with
  | [] => true
  | c :: r =>
      match r with
      | [] => true
      | c' :: _ =>
          negb (is_high_surrogate c && is_low_surrogate c') && no_surrogate_pair r
      end
  end.

Definition json_safe_str (s : pystr) : bool := is_str s && no_surrogate_pair s.

(** Values without numbers whose strings are [json_safe_str] and whose
    dictionaries have distinct keys. *)
Fixpoint json_safe (v : pyval) : bool :=
  match v with
  | PNone | PBool _ => true
  | PNum _ => false
  | PStr s => json_safe_str s
  | PList items => forallb json_safe items
  | PDict entries =>
      bool_decide (NoDup (map fst entries))
      && forallb (fun kv => json_safe_str (fst kv) && json_safe (snd kv)) entries
  end.

Definition record_safe (b : BookRecord) : bool :=
  json_safe_str (title b) && json_safe_str (author b)
  && json_safe_str (year b) && json_safe_str (file_path b).

(** Whether the decoder, having read a high surrogate escape, joins it
    with what follows (or fails on it). *)
Definition joins_low (t : pystr) : bool :=
  match t with
  | b :: x :: t0 =>
      (b =? 92) && (x =? 117) &&
      match t0 with
      | g1 :: g2 :: g3 :: g4 :: _ =>
          match decode_hex4 g1 g2 g3 g4 with
          | Some u2 => is_low_surrogate u2
          | None => true
          end
      | _ => true
      end
  | _ => false
  end.

(** The text after the first of the parts of a [join], up to and
    including the closing text. *)
Fixpoint items_text (sep : pystr) (parts : list pystr) (closing : pystr) : pystr :=
  match parts with
  | [] => closing
  | p :: r => sep ++ p ++ items_text sep r closing
  end.

(** The text of one entry of a dictionary. *)
Definition entry_text (num_repr : pystr -> pystr) (level : nat)
    (kv : pystr * pyval) : pystr :=
  encode_basestring_ascii (fst kv) ++ py ": " ++ iterencode num_repr level (snd kv).

(** The decoder reads the encoding of [v] back, whatever follows it,
    given fuel beyond its length. *)
Definition reads_back (num_repr : pystr -> pystr) (v : pyval) : Prop :=
  forall level fuel tail,
    (length (iterencode num_repr level v) < fuel)%nat ->
    scan_once fuel (iterencode num_repr level v ++ tail) = Some (v, tail).

(** ** A sample environment and sample records *)

Definition sample_env : Env := {|
  num_json := fun lit => lit;
  num_repr := fun lit => lit;
  num_bool := fun lit => negb (forallb (fun c => (c =? 48) || (c =? 45)) lit);
  container_str := fun _ => py "[...]";
  validators_url := fun url => bool_decide (py "http" `prefix_of` url);
  requests_get := fun url =>
    Some {| status_code := if endswith url (py "/missing.pdf") then 404%Z else 200%Z;
            content := py "%PDF-1.4" |};
  fitz_open := fun path file =>
    match file with
    | None => Raise CaughtFileNotFound
    | Some _ =>
        Return [ {| get_text := py "Chapter 1" ++ [10];
                    get_pixmap := {| width := 1; height := 1; samples := [0; 0; 0] |} |};
                 {| get_text := [32; 10];
                    get_pixmap := {| width := 1; height := 1; samples := [255; 255; 255] |} |} ]
    end;
  image_to_string := fun img =>
    if bool_decide (data img = [255; 255; 255]) then Return (py "scanned page")
    else Raise (CaughtException (py "tesseract failed"));
  docx_Document := fun path file =>
    match file with
    | None => Raise CaughtFileNotFound
    | Some _ => Return [py "First paragraph"; py "Second paragraph"]
    end
|}.

Definition moby : BookRecord :=
  mkBook (py "Moby Dick") (py "Herman Melville") (py "1851") (py "books/moby.pdf").
Definition emma : BookRecord :=
  mkBook (py "Emma") (py "Jane Austen") (py "1815") (py "books/emma.docx").

(** A record whose title is a high surrogate code point followed by a
    low one. *)
Definition surrogates : BookRecord :=
  mkBook [0xd83d; 0xde00] (py "a") (py "2024") (py "books/a.pdf").

(** A second record with the title of [moby]. *)
Definition moby_reprint : BookRecord :=
  mkBook (py "Moby Dick") (py "H. Melville") (py "1992") (py "books/moby2.txt").



(** ** Titles in the store *)

(** The titles of the records of a store, in store order. *)
Definition item_titles (items : list pyval) : list pyval :=
  omap (fun item =>
          match getitem item (py "title") with
          | Return t => Some t
          | Raise _ => None
          end) items.

Definition store_titles (store : pyval) : list pyval :=
  match store with
  | PList items => item_titles items
  | _ => []
  end.

(** No two records of the store have equal titles. *)
Definition unique_titles (store : pyval) : Prop := NoDup (store_titles store).

(** A choice that does not bring a title already in the store: an added
    title is new, and an edit keeps the title of its record or gives it a
    new one. *)
Definition fresh_choice (c : choice) (store : pyval) : Prop :=
  match c with
  | AddBook t _ _ _ => PStr t ∉ store_titles store
  | EditBook e in_title _ _ _ =>
      edited_field e in_title = e \/ PStr (edited_field e in_title) ∉ store_titles store
  | _ => True
  end.

(** The library [main] loads at its start is a list of records with
    distinct titles (the empty list when there is no [books.json]). *)
Definition loads_unique (fs0 : gmap pystr pystr) : Prop :=
  exists books,
    books_store (snd (init (mkState PNone fs0 []))) = store_of books
    /\ NoDup (map title books).

(** Every choice [main_loop] takes from [answers], started in [st], is a
    [fresh_choice] for the store it finds. *)
Fixpoint fresh_run (env : Env) (answers : list choice) (st : State) : Prop :=
  match answers with
  | [] => True
  | c :: rest =>
      let st1 := snd (print_menu st) in
      fresh_choice c (books_store st1)
      /\ match c, fst (dispatch env c st1) with
         | Exit, _ => True
         | _, Return _ => fresh_run env rest (snd (dispatch env c st1))
         | _, Raise _ => True
         end
  end.

(** The answers of a user who adds two books with different titles to a
    new library, and of one who adds the same title twice. *)
Definition two_titles : list choice :=
  [AddBook (py "Moby Dick") (py "Herman Melville") (py "1851")
     (py "http://example.org/moby.pdf");
   AddBook (py "Emma") (py "Jane Austen") (py "1815")
     (py "http://example.org/emma.docx")].

Definition same_title_twice : list choice :=
  [AddBook (py "Emma") (py "Jane Austen") (py "1815")
     (py "http://example.org/emma.docx");
   AddBook (py "Emma") (py "J. Austen") (py "1816")
     (py "http://example.org/emma.pdf")].

(** A store that is not a list of book records. *)
Definition nested_store : pyval :=
  PDict [(py "shelf", PList [PStr (py "Emma"); PNone; PBool true; PList []]);
         (py "owner", PDict [(py "name", PStr [233; 128512])])].

(** A record without a title. *)
Definition untitled_dict : pyval :=
  PDict [(py "author", PStr (py "Anonymous")); (py "year", PStr (py "1600"));
         (py "file_path", PStr (py "books/anon.pdf"))].

(** A record without an author. *)
Definition authorless_dict : pyval :=
  PDict [(py "title", PStr (py "Emma")); (py "year", PStr (py "1815"));
         (py "file_path", PStr (py "books/emma.docx"))].

(** ** The listing of [view_books] *)


(** * Properties *)

(** ** Strings through the JSON encoder and decoder *)

Ltac Zify.zify_post_hook ::= Z.to_euclidean_division_equations.

Lemma hexval_hexdigit d : d < 16 -> hexval (hexdigit d) = Some d.
Proof.
  intros H. unfold hexval, hexdigit.
  destruct (N.ltb_spec d 10).
  - replace ((48 <=? 48 + d) && (48 + d <=? 57)) with true
      by (symmetry; apply andb_true_iff; split; apply N.leb_le; lia).
    f_equal. lia.
  - replace ((48 <=? 87 + d) && (87 + d <=? 57)) with false
      by (symmetry; apply andb_false_iff; right; apply N.leb_gt; lia).
    replace ((97 <=? 87 + d) && (87 + d <=? 102)) with true
      by (symmetry; apply andb_true_iff; split; apply N.leb_le; lia).
    f_equal. lia.
Qed.

Lemma decode_hex4_hex4 u :
  u < 0x10000 ->
  decode_hex4 (hexdigit (u / 4096 mod 16)) (hexdigit (u / 256 mod 16))
    (hexdigit (u / 16 mod 16)) (hexdigit (u mod 16)) = Some u.
Proof.
  intros H. unfold decode_hex4.
  rewrite !hexval_hexdigit by (apply N.mod_upper_bound; lia).
  f_equal. lia.
Qed.

Lemma lor_disjoint a b k : a mod 2 ^ k = 0 -> b < 2 ^ k -> N.lor a b = a + b.
Proof.
  intros Ha Hb.
  assert (Hland : N.land a b = 0).
  { rewrite <- (N.mod_small b (2 ^ k)) by exact Hb.
    rewrite <- N.land_ones, (N.land_comm b), N.land_assoc, N.land_ones, Ha.
    apply N.land_0_l. }
  rewrite <- N.lxor_lor by exact Hland.
  symmetry. apply N.add_nocarry_lxor. exact Hland.
Qed.

Section Surrogates.
Variable c : N.
Hypothesis Hlo : 0x10000 <= c.
Hypothesis Hhi : c < 0x110000.

Lemma lead_surrogate_value :
lead_surrogate (c - 0x10000) = 0xd800 + (c - 0x10000) / 1024.
Proof.
unfold lead_surrogate. change 0x3ff with (N.ones 10).
rewrite N.land_ones, N.shiftr_div_pow2.
change (2 ^ 10) with 1024.
rewrite (lor_disjoint _ _ 10); [| reflexivity | apply N.mod_upper_bound; discriminate].
change (2 ^ 10) with 1024. lia.
Qed.

Lemma trail_surrogate_value :
trail_surrogate (c - 0x10000) = 0xdc00 + (c - 0x10000) mod 1024.
Proof.
unfold trail_surrogate. change 0x3ff with (N.ones 10).
rewrite N.land_ones. change (2 ^ 10) with 1024.
rewrite (lor_disjoint _ _ 10); [| reflexivity | apply N.mod_upper_bound; discriminate].
reflexivity.
Qed.

Lemma surrogate_join :
join_surrogates (lead_surrogate (c - 0x10000)) (trail_surrogate (c - 0x10000)) = c.
Proof.
unfold join_surrogates. rewrite lead_surrogate_value, trail_surrogate_value.
replace (0xd800 + (c - 0x10000) / 1024 - 0xd800) with ((c - 0x10000) / 1024) by lia.
replace (0xdc00 + (c - 0x10000) mod 1024 - 0xdc00) with ((c - 0x10000) mod 1024)
  by lia.
rewrite N.shiftl_mul_pow2.
rewrite (lor_disjoint _ _ 10).
- change (2 ^ 10) with 1024. lia.
- apply N.Div0.mod_mul.
- apply N.mod_upper_bound. discriminate.
Qed.

Lemma lead_surrogate_high :
is_high_surrogate (lead_surrogate (c - 0x10000)) = true
/\ lead_surrogate (c - 0x10000) < 0x10000.
Proof.
rewrite lead_surrogate_value. unfold is_high_surrogate.
split; [apply andb_true_iff; split; apply N.leb_le |]; lia.
Qed.

Lemma trail_surrogate_low :
is_low_surrogate (trail_surrogate (c - 0x10000)) = true
/\ trail_surrogate (c - 0x10000) < 0x10000.
Proof.
rewrite trail_surrogate_value. unfold is_low_surrogate.
split; [apply andb_true_iff; split; apply N.leb_le |]; lia.
Qed.
End Surrogates.

Lemma scanstring_escape u t :
  u < 0x10000 ->
  (is_high_surrogate u = true -> joins_low t = false) ->
  scanstring (92 :: 117 :: hex4 u ++ t) = scanned u (scanstring t).
Proof.
  intros Hu Hjoin. unfold hex4. simpl.
  rewrite decode_hex4_hex4 by exact Hu.
  destruct (is_high_surrogate u); [| reflexivity].
  specialize (Hjoin eq_refl).
  destruct t as [| b [| x t0]]; try reflexivity.
  simpl in Hjoin.
  destruct ((b =? 92) && (x =? 117)); [| reflexivity].
  simpl in Hjoin.
  destruct t0 as [| g1 [| g2 [| g3 [| g4 r3]]]]; try discriminate.
  destruct (decode_hex4 g1 g2 g3 g4); [| discriminate].
  rewrite Hjoin. reflexivity.
Qed.

Lemma scanstring_escape_pair c t :
  0x10000 <= c -> c < 0x110000 ->
  scanstring
    (92 :: 117 :: hex4 (lead_surrogate (c - 0x10000))
     ++ 92 :: 117 :: hex4 (trail_surrogate (c - 0x10000)) ++ t)
  = scanned c (scanstring t).
Proof.
  intros Hlo Hhi.
  destruct (lead_surrogate_high c Hlo Hhi) as [Hh1 Hb1].
  destruct (trail_surrogate_low c Hlo Hhi) as [Hl2 Hb2].
  pose proof (surrogate_join c Hlo Hhi) as Hj.
  set (s1 := lead_surrogate _) in *. set (s2 := trail_surrogate _) in *.
  unfold hex4. simpl.
  rewrite !decode_hex4_hex4 by assumption.
  rewrite Hh1. simpl. rewrite Hl2, Hj. reflexivity.
Qed.

Lemma encode_char_head c t :
  c < 0x110000 -> is_low_surrogate c = false ->
  joins_low (encode_char c ++ t) = false.
Proof.
  intros Hc Hlow. unfold encode_char.
  repeat (match goal with
          | |- context [if ?x =? ?y then _ else _] =>
              destruct (N.eqb_spec x y); [reflexivity |]
          end).
  destruct ((32 <=? c) && (c <=? 126)).
  - simpl. destruct t; [reflexivity |].
    rewrite (proj2 (N.eqb_neq c 92)) by assumption. reflexivity.
  - destruct (N.ltb_spec c 0x10000).
    + unfold hex4. simpl. rewrite decode_hex4_hex4 by assumption. exact Hlow.
    + destruct (lead_surrogate_high c) as [Hh1 Hb1]; [assumption.. |].
      set (s1 := lead_surrogate _) in *.
      unfold hex4. simpl. rewrite decode_hex4_hex4 by assumption.
      unfold is_high_surrogate in Hh1. unfold is_low_surrogate.
      apply andb_true_iff in Hh1 as [_ H2]. apply N.leb_le in H2.
      apply andb_false_iff. left. apply N.leb_gt. lia.
Qed.

Lemma scanstring_encode_char c t :
  c < 0x110000 ->
  (is_high_surrogate c = true -> joins_low t = false) ->
  scanstring (encode_char c ++ t) = scanned c (scanstring t).
Proof.
  intros Hc Hjoin. unfold encode_char.
  repeat (match goal with
          | |- context [if ?x =? ?y then _ else _] =>
              destruct (N.eqb_spec x y); [subst; reflexivity |]
          end).
  destruct ((32 <=? c) && (c <=? 126)) eqn:Hprint.
  - apply andb_true_iff in Hprint as [H1 H2]. apply N.leb_le in H1.
    simpl.
    rewrite (proj2 (N.eqb_neq c 34)), (proj2 (N.eqb_neq c 92)) by assumption.
    rewrite (proj2 (N.ltb_ge c 32)) by assumption. reflexivity.
  - destruct (N.ltb_spec c 0x10000).
    + apply scanstring_escape; assumption.
    + rewrite <- app_assoc. apply scanstring_escape_pair; assumption.
Qed.

Lemma scanstring_encode s rest :
  json_safe_str s = true ->
  scanstring (flat_map encode_char s ++ 34 :: rest) = Some (s, rest).
Proof.
  unfold json_safe_str. rewrite andb_true_iff. intros [Hstr Hpair].
  induction s as [| c s IH]; [reflexivity |].
  simpl in Hstr. apply andb_true_iff in Hstr as [Hc Hstr]. apply N.ltb_lt in Hc.
  assert (Hpair' : no_surrogate_pair s = true).
  { simpl in Hpair. destruct s; [reflexivity |].
    apply andb_true_iff in Hpair as [_ ?]. assumption. }
  simpl flat_map. rewrite <- app_assoc.
  rewrite scanstring_encode_char; [rewrite IH by assumption; reflexivity | exact Hc |].
  intros Hhigh. destruct s as [| c' s']; [destruct rest; reflexivity |].
  simpl in Hpair. rewrite Hhigh in Hpair. simpl in Hpair.
  apply andb_true_iff in Hpair as [Hlow _]. apply negb_true_iff in Hlow.
  simpl in Hstr. apply andb_true_iff in Hstr as [Hc' _]. apply N.ltb_lt in Hc'.
  simpl flat_map. rewrite <- app_assoc. apply encode_char_head; assumption.
Qed.

Lemma scan_once_string fuel s rest :
  json_safe_str s = true ->
  scan_once (S fuel) (encode_basestring_ascii s ++ rest) = Some (PStr s, rest).
Proof.
  intros Hs. unfold encode_basestring_ascii.
  rewrite <- !app_assoc. cbn [app scan_once]. 
  change (34 =? 34) with true. cbv iota.
  change ([34] ++ rest) with (34 :: rest).
  rewrite scanstring_encode by exact Hs. reflexivity.
Qed.

(** ** Values through the JSON encoder and decoder *)

Lemma join_items sep p r closing :
  join sep (p :: r) ++ closing = p ++ items_text sep r closing.
Proof.
  revert p. induction r as [| q r IH]; intros p; [reflexivity |].
  change (join sep (p :: q :: r)) with (p ++ sep ++ join sep (q :: r)).
  rewrite <- !app_assoc, IH. reflexivity.
Qed.

Lemma length_items_text sep parts closing :
  length (items_text sep parts closing)
  = (length (items_text sep parts []) + length closing)%nat.
Proof.
  induction parts as [| p r IH]; [reflexivity |].
  cbn [items_text]. rewrite !length_app, IH. lia.
Qed.

Lemma dict_set_fresh k v d :
  k ∉ map fst d -> dict_set k v d = d ++ [(k, v)].
Proof.
  induction d as [| [k' v'] d IH]; intros Hk; [reflexivity |].
  cbn [dict_set]. rewrite bool_decide_eq_false_2.
  - rewrite IH; [reflexivity |]. intros ?. apply Hk. cbn. by right.
  - intros ->. apply Hk. cbn. by left.
Qed.

Lemma dict_of_pairs_nodup pairs :
  NoDup (map fst pairs) -> dict_of_pairs pairs = pairs.
Proof.
  unfold dict_of_pairs. change pairs with ([] ++ pairs) at 1 3.
  generalize (@nil (pystr * pyval)) as acc.
  induction pairs as [| [k v] pairs IH]; intros acc Hnd.
  - rewrite app_nil_r. reflexivity.
  - cbn [fold_left fst snd]. rewrite dict_set_fresh.
    + rewrite IH; [rewrite <- app_assoc; reflexivity |].
      rewrite <- app_assoc. exact Hnd.
    + rewrite map_app in Hnd. apply NoDup_app in Hnd as (_ & Hdisj & _).
      intros Hin. apply (Hdisj k Hin). cbn. by left.
Qed.

Lemma skip_ws_newline_indent level t :
  skip_ws (newline_indent level ++ t) = skip_ws t.
Proof.
  unfold newline_indent. generalize (4 * level)%nat. intros n.
  induction n as [| n IH]; [reflexivity | exact IH].
Qed.

Lemma skip_ws_head c t : is_ws c = false -> skip_ws (c :: t) = c :: t.
Proof. intros H. simpl. rewrite H. reflexivity. Qed.

Section Roundtrip.
Variable num_repr : pystr -> pystr.

Local Abbreviation enc := (iterencode num_repr).
Local Abbreviation entry_text := (entry_text num_repr).
Local Abbreviation reads_back := (reads_back num_repr).

Lemma iterencode_head level v :
  json_safe v = true ->
  exists c t, enc level v = c :: t /\ is_ws c = false /\ c <> 93.
Proof.
  destruct v as [| [] | | | [|] | [|]]; intros H; try discriminate H;
    simpl; eexists _, _; (split; [reflexivity | split; [reflexivity | discriminate]]).
Qed.

Lemma skip_ws_value level v t :
  json_safe v = true -> skip_ws (enc level v ++ t) = enc level v ++ t.
Proof.
  intros Hsafe.
  destruct (iterencode_head level v Hsafe) as (c & r & Hc & Hws & _).
  rewrite Hc. apply skip_ws_head. exact Hws.
Qed.

Lemma iterencode_list level x xs tail :
  enc level (PList (x :: xs)) ++ tail
  = 91 :: newline_indent (S level) ++ enc (S level) x
    ++ items_text ([44] ++ newline_indent (S level)) (map (enc (S level)) xs)
         (newline_indent level ++ 93 :: tail).
Proof.
  cbn [iterencode]. rewrite <- !app_assoc. cbn [app]. do 2 f_equal.
  change (map (enc (S level)) (x :: xs)) with (enc (S level) x :: map (enc (S level)) xs).
  rewrite <- join_items. reflexivity.
Qed.

Lemma iterencode_dict level kv kvs tail :
  enc level (PDict (kv :: kvs)) ++ tail
  = 123 :: newline_indent (S level) ++ entry_text (S level) kv
    ++ items_text ([44] ++ newline_indent (S level)) (map (entry_text (S level)) kvs)
         (newline_indent level ++ 125 :: tail).
Proof.
  cbn [iterencode]. rewrite <- !app_assoc. cbn [app]. do 2 f_equal.
  change (map ?f (kv :: kvs)) with (f kv :: map f kvs).
  rewrite <- join_items. reflexivity.
Qed.

Lemma parse_array_items level xs :
  Forall (fun x => json_safe x = true /\ reads_back x) xs ->
  forall x fuel tail,
    json_safe x = true -> reads_back x ->
    (length (enc (S level) x
             ++ items_text ([44%N] ++ newline_indent (S level))
                  (map (enc (S level)) xs) []) + 1 < fuel)%nat ->
    parse_array fuel
      (enc (S level) x
       ++ items_text ([44] ++ newline_indent (S level)) (map (enc (S level)) xs)
            (newline_indent level ++ 93 :: tail))
    = Some (x :: xs, tail).
Proof.
  induction 1 as [| y ys [Hsafe Hy] Hys IH]; intros x fuel tail Hx Hback Hfuel.
  - destruct fuel as [| fuel]; [lia |].
    cbn [items_text map] in *. rewrite app_nil_r in Hfuel.
    cbn [parse_array]. rewrite Hback by lia.
    rewrite skip_ws_newline_indent, skip_ws_head by reflexivity.
    reflexivity.
  - destruct fuel as [| fuel]; [lia |].
    cbn [items_text map] in *. rewrite !length_app in Hfuel.
    cbn [parse_array]. rewrite Hback by lia. 
    rewrite <- (app_assoc [44]). cbn [app]. rewrite skip_ws_head by reflexivity.
    change (44 =? 93) with false. change (44 =? 44) with true. cbv iota.
    rewrite skip_ws_newline_indent.
    rewrite skip_ws_value by exact Hsafe.
    rewrite IH; [reflexivity | assumption.. |].
    cbn [length] in Hfuel. rewrite !length_app. lia.
Qed.

Lemma parse_object_entries level kvs :
  Forall (fun kv => json_safe_str (fst kv) = true
                    /\ json_safe (snd kv) = true /\ reads_back (snd kv)) kvs ->
  forall k v fuel tail,
    json_safe_str k = true -> json_safe v = true -> reads_back v ->
    (length (entry_text (S level) (k, v)
             ++ items_text ([44%N] ++ newline_indent (S level))
                  (map (entry_text (S level)) kvs) []) + 1 < fuel)%nat ->
    parse_object fuel
      (flat_map encode_char k ++ 34 :: py ": " ++ enc (S level) v
       ++ items_text ([44] ++ newline_indent (S level))
            (map (entry_text (S level)) kvs)
            (newline_indent level ++ 125 :: tail))
    = Some ((k, v) :: kvs, tail).
Proof.
  induction 1 as [| [k' v'] kvs' (Hk' & Hv' & Hback') Hkvs IH];
    intros k v fuel tail Hk Hv Hback Hfuel.
  - destruct fuel as [| fuel]; [lia |].
    unfold entry_text in Hfuel. cbn [items_text map fst snd] in *.
    rewrite !length_app in Hfuel.
    cbn [parse_object]. rewrite scanstring_encode by exact Hk.
    change (py ": ") with [58; 32]. cbn [app].
    rewrite skip_ws_head by reflexivity.
    change (58 =? 58) with true. cbv iota.
    change (skip_ws (32 :: ?t)) with (skip_ws t).
    rewrite skip_ws_value by exact Hv. rewrite Hback by lia.
    rewrite skip_ws_newline_indent, skip_ws_head by reflexivity.
    reflexivity.
  - destruct fuel as [| fuel]; [lia |].
    unfold entry_text in Hfuel. cbn [items_text map fst snd] in *.
    rewrite !length_app in Hfuel.
    cbn [parse_object]. rewrite scanstring_encode by exact Hk.
    change (py ": ") with [58; 32]. cbn [app].
    rewrite skip_ws_head by reflexivity.
    change (58 =? 58) with true. cbv iota.
    change (skip_ws (32 :: ?t)) with (skip_ws t).
    rewrite skip_ws_value by exact Hv. rewrite Hback by lia.
    cbn [app]. rewrite skip_ws_head by reflexivity.
    change (44 =? 125) with false. change (44 =? 44) with true. cbv iota.
    rewrite skip_ws_newline_indent.
    unfold entry_text at 1, encode_basestring_ascii. cbn [fst snd].
    rewrite <- !app_assoc. cbn [app]. rewrite skip_ws_head by reflexivity.
    change (34 =? 34) with true. cbv iota.
    rewrite IH; [reflexivity | assumption.. |].
    unfold entry_text. cbn [fst snd]. rewrite !length_app. cbn [length] in *. lia.
Qed.

Lemma scan_once_array fuel r r1 q :
  skip_ws r = r1 -> head r1 = Some q -> q <> 93 ->
  scan_once (S fuel) (91 :: r)
  = match parse_array fuel r1 with
    | Some (values, rest) => Some (PList values, rest)
    | None => None
    end.
Proof.
  intros Hr Hhead Hq. cbn [scan_once].
  change (91 =? 34) with false. change (91 =? 123) with false.
  change (91 =? 91) with true. cbv iota.
  rewrite Hr. destruct r1 as [| q' r2]; [discriminate |].
  injection Hhead as ->.
  rewrite (proj2 (N.eqb_neq q 93)) by exact Hq. reflexivity.
Qed.

Lemma scan_once_object fuel r r2 :
  skip_ws r = 34 :: r2 ->
  scan_once (S fuel) (123 :: r)
  = match parse_object fuel r2 with
    | Some (pairs, rest) => Some (PDict (dict_of_pairs pairs), rest)
    | None => None
    end.
Proof.
  intros Hr. cbn [scan_once].
  change (123 =? 34) with false. change (123 =? 123) with true. cbv iota.
  rewrite Hr. reflexivity.
Qed.

Lemma scan_once_iterencode v : json_safe v = true -> reads_back v.
Proof.
  induction v as [| b | lit | s | items IH | entries IH] using pyval_ind;
    intros Hsafe.
  - intros level [| fuel] tail Hfuel; [inversion Hfuel | reflexivity].
  - intros level [| fuel] tail Hfuel; [inversion Hfuel |].
    destruct b; reflexivity.
  - discriminate Hsafe.
  - intros level [| fuel] tail Hfuel; [inversion Hfuel |].
    apply scan_once_string. exact Hsafe.
  - intros level [| fuel] tail Hfuel; [inversion Hfuel |].
    destruct items as [| x xs]; [reflexivity |].
    cbn [json_safe forallb] in Hsafe.
    apply andb_true_iff in Hsafe as [Hx Hxs].
    inversion IH as [| ? ? IHx IHxs]; subst.
    pose proof (f_equal (@length N) (iterencode_list level x xs [])) as Hlen.
    rewrite app_nil_r in Hlen. rewrite Hlen in Hfuel. clear Hlen.
    rewrite iterencode_list.
    destruct (iterencode_head (S level) x Hx) as (c & t & Hc & Hws & Hne).
    rewrite (scan_once_array _ _ _ c
               (eq_trans (skip_ws_newline_indent _ _) (skip_ws_value _ _ _ Hx)));
      [| rewrite Hc; reflexivity | exact Hne].
    rewrite parse_array_items; [reflexivity | | exact Hx | exact (IHx Hx) |].
    + apply Forall_forall. intros y Hy. split.
      * rewrite forallb_forall in Hxs. apply Hxs.
        apply list_elem_of_In. exact Hy.
      * rewrite Forall_forall in IHxs. apply IHxs; [exact Hy |].
        rewrite forallb_forall in Hxs. apply Hxs, list_elem_of_In, Hy.
    + rewrite length_app in *. cbn [length] in Hfuel.
      rewrite !length_app, length_items_text, !length_app in Hfuel.
      cbn [length] in Hfuel. lia.
  - intros level [| fuel] tail Hfuel; [inversion Hfuel |].
    destruct entries as [| [k v] kvs]; [reflexivity |].
    cbn [json_safe forallb fst snd map] in Hsafe.
    apply andb_true_iff in Hsafe as [Hnd Hsafe].
    apply bool_decide_eq_true in Hnd.
    apply andb_true_iff in Hsafe as [Hkv Hkvs].
    apply andb_true_iff in Hkv as [Hk Hv].
    inversion IH as [| ? ? IHv IHkvs]; subst. cbn [snd] in IHv.
    pose proof (f_equal (@length N) (iterencode_dict level (k, v) kvs [])) as Hlen.
    rewrite app_nil_r in Hlen. rewrite Hlen in Hfuel. clear Hlen.
    rewrite iterencode_dict.
    unfold entry_text at 1, encode_basestring_ascii. cbn [fst snd].
    rewrite <- !app_assoc. cbn [app].
    rewrite (scan_once_object _ _ _
               (eq_trans (skip_ws_newline_indent _ _) (skip_ws_head 34 _ eq_refl))).
    rewrite parse_object_entries; [| | exact Hk | exact Hv | exact (IHv Hv) |].
    + rewrite dict_of_pairs_nodup by exact Hnd. reflexivity.
    + apply Forall_forall. intros [k' v'] Hin. cbn [fst snd].
      rewrite forallb_forall in Hkvs.
      pose proof (Hkvs _ (proj1 (list_elem_of_In _ _) Hin)) as Hkv'.
      cbn [fst snd] in Hkv'. apply andb_true_iff in Hkv' as [Hk' Hv'].
      rewrite Forall_forall in IHkvs.
      split; [exact Hk' | split; [exact Hv' | exact (IHkvs _ Hin Hv')]].
    + rewrite length_app in *. cbn [length] in Hfuel.
      rewrite !length_app, length_items_text, !length_app in Hfuel.
      cbn [length] in Hfuel. lia.
Qed.
End Roundtrip.

Lemma json_loads_dumps num_repr v :
  json_safe v = true -> json_loads (json_dumps num_repr v) = Some v.
Proof.
  intros Hsafe. unfold json_loads, json_dumps.
  rewrite <- (app_nil_r (iterencode num_repr 0 v)) at 2.
  rewrite skip_ws_value by exact Hsafe.
  rewrite (scan_once_iterencode num_repr v Hsafe) by lia.
  reflexivity.
Qed.

(** ** The fuel of the decoder *)

Lemma skip_ws_length s : (length (skip_ws s) <= length s)%nat.
Proof.
  induction s as [| c s IH]; [reflexivity |].
  cbn [skip_ws]. destruct (is_ws c); cbn [length]; lia.
Qed.

Lemma scanned_length c r str rest :
  scanned c r = Some (str, rest) -> exists str', r = Some (str', rest).
Proof. destruct r as [[str' rest'] |]; [intros [= <- <-]; eauto | discriminate]. Qed.

Lemma scanstring_length s :
  forall str rest, scanstring s = Some (str, rest) -> (length rest < length s)%nat.
Proof.
  induction s as [s IH] using (well_founded_induction
                                 (Wf_nat.well_founded_ltof _ (@length N))).
  unfold Wf_nat.ltof in IH. intros str rest.
  destruct s as [| c r]; [discriminate |]. cbn [scanstring].
  destruct (c =? 34); [intros [= <- <-]; cbn; lia |].
  destruct (c =? 92).
  - destruct r as [| e r1]; [discriminate |].
    destruct (e =? 117).
    + destruct r1 as [| h1 [| h2 [| h3 [| h4 r2]]]]; try discriminate.
      destruct (decode_hex4 h1 h2 h3 h4) as [uni |]; [| discriminate].
      assert (Hplain : scanned uni (scanstring r2) = Some (str, rest) ->
                       (length rest < length (c :: e :: h1 :: h2 :: h3 :: h4 :: r2))%nat).
      { intros H. apply scanned_length in H as [str' H].
        apply IH in H; cbn [length] in *; lia. }
      destruct (is_high_surrogate uni); [| exact Hplain].
      destruct r2 as [| b [| u t]]; try exact Hplain.
      destruct ((b =? 92) && (u =? 117)); [| exact Hplain].
      destruct t as [| g1 [| g2 [| g3 [| g4 r3]]]]; try discriminate.
      destruct (decode_hex4 g1 g2 g3 g4) as [uni2 |]; [| discriminate].
      destruct (is_low_surrogate uni2); [| exact Hplain].
      intros H. apply scanned_length in H as [str' H].
      apply IH in H; cbn [length] in *; lia.
    + destruct (unescape e); [| discriminate].
      intros H. apply scanned_length in H as [str' H].
      apply IH in H; cbn [length] in *; lia.
  - destruct (c <? 32); [discriminate |].
    intros H. apply scanned_length in H as [str' H].
    apply IH in H; cbn [length] in *; lia.
Qed.

Lemma after_word_length w :
  forall s rest, after_word w s = Some rest -> length s = (length w + length rest)%nat.
Proof.
  induction w as [| a w IH]; intros s rest.
  - cbn. intros [= ->]. reflexivity.
  - destruct s as [| c r]; [discriminate |]. cbn [after_word].
    destruct (a =? c); [| discriminate].
    intros H. apply IH in H. cbn [length]. lia.
Qed.

Lemma span_digits_length s :
  forall d rest, span_digits s = (d, rest) -> (length rest <= length s)%nat.
Proof.
  induction s as [| c s IH]; intros d rest.
  - intros [= <- <-]. reflexivity.
  - cbn [span_digits]. destruct (is_digit c).
    + destruct (span_digits s) as [d' rest'] eqn:Hs. intros [= <- <-].
      specialize (IH _ _ eq_refl). cbn [length]. lia.
    + intros [= <- <-]. reflexivity.
Qed.

Lemma match_number_length s lit rest :
  match_number s = Some (lit, rest) -> (length rest < length s)%nat.
Proof.
  unfold match_number.
  set (signed := match s with
                 | [] => ([], s)
                 | c :: r => if c =? 45 then ([45], r) else ([], s)
                 end).
  assert (Hsigned : (length (snd signed) <= length s)%nat).
  { subst signed. destruct s as [| c r]; [reflexivity |].
    destruct (c =? 45); cbn [snd length]; lia. }
  destruct signed as [sign s1]. cbn [snd] in Hsigned.
  destruct s1 as [| c r]; [discriminate |].
  destruct (is_digit c); [| discriminate].
  set (int := if c =? 48 then (sign ++ [48], r)
              else let '(d, rest0) := span_digits r in (sign ++ c :: d, rest0)).
  assert (Hint : (length (snd int) <= length r)%nat).
  { subst int. destruct (c =? 48); [reflexivity |].
    destruct (span_digits r) as [d rest0] eqn:Hd.
    apply span_digits_length in Hd. exact Hd. }
  destruct int as [int rest0]. cbn [snd] in Hint.
  set (frac := match rest0 with
               | [] => ([], rest0)
               | p :: r1 =>
                   if p =? 46 then
                     match span_digits r1 with
                     | ([], _) => ([], rest0)
                     | (d, r2) => (46 :: d, r2)
                     end
                   else ([], rest0)
               end).
  assert (Hfrac : (length (snd frac) <= length rest0)%nat).
  { subst frac. destruct rest0 as [| p r1]; [reflexivity |].
    destruct (p =? 46); [| reflexivity].
    destruct (span_digits r1) as [[| d0 d] r2] eqn:Hd; [reflexivity |].
    apply span_digits_length in Hd. cbn [snd length]. lia. }
  destruct frac as [frac rest1]. cbn [snd] in Hfrac.
  set (exp := match rest1 with
              | [] => ([], rest1)
              | e :: r1 =>
                  if (e =? 101) || (e =? 69) then
                    let '(sg, r2) :=
                      match r1 with
                      | [] => ([], r1)
                      | g :: r2 => if (g =? 43) || (g =? 45) then ([g], r2) else ([], r1)
                      end in
                    match span_digits r2 with
                    | ([], _) => ([], rest1)
                    | (d, r3) => (e :: sg ++ d, r3)
                    end
                  else ([], rest1)
              end).
  assert (Hexp : (length (snd exp) <= length rest1)%nat).
  { subst exp. destruct rest1 as [| e r1]; [reflexivity |].
    destruct ((e =? 101) || (e =? 69)); [| reflexivity].
    set (sgn := match r1 with
                | [] => ([], r1)
                | g :: r2 => if (g =? 43) || (g =? 45) then ([g], r2) else ([], r1)
                end).
    assert (Hsgn : (length (snd sgn) <= length r1)%nat).
    { subst sgn. destruct r1 as [| g r2]; [reflexivity |].
      destruct ((g =? 43) || (g =? 45)); cbn [snd length]; lia. }
    destruct sgn as [sg r2]. cbn [snd] in Hsgn.
    destruct (span_digits r2) as [[| d0 d] r3] eqn:Hd; [reflexivity |].
    apply span_digits_length in Hd. cbn [snd length]. lia. }
  destruct exp as [exp rest2]. cbn [snd] in Hexp.
  intros [= <- <-]. cbn [length] in *. lia.
Qed.

Lemma decoder_fuel_enough fuel :
  fuel_enough scan_once fuel /\ fuel_enough parse_array fuel
  /\ fuel_enough parse_object fuel.
Proof.
  induction fuel as [| fuel (IHscan & IHarray & IHobject)];
    [repeat split; discriminate |].
  split; [| split]; intros s a rest.
  - (* scan_once *)
    destruct s as [| c r]; [discriminate |].
    cbn [scan_once].
    destruct (c =? 34) eqn:Hquote.
    { destruct (scanstring r) as [[str rest0] |] eqn:Hstr; [| discriminate].
      intros [= <- <-]. apply scanstring_length in Hstr as Hlen.
      split; [cbn [length]; lia |].
      intros [| fuel'] Hfuel; [cbn [length] in Hfuel; lia |].
      cbn [scan_once]. rewrite Hquote, Hstr. reflexivity. }
    destruct (c =? 123) eqn:Hbrace.
    { pose proof (skip_ws_length r) as Hws.
      destruct (skip_ws r) as [| q r2] eqn:Hr1; [discriminate |].
      destruct (q =? 125) eqn:Hclose.
      { intros [= <- <-]. cbn [length] in *. split; [lia |].
        intros [| fuel'] Hfuel; [lia |].
        cbn [scan_once]. rewrite Hquote, Hbrace, Hr1, Hclose. reflexivity. }
      destruct (q =? 34) eqn:Hkey; [| discriminate].
      destruct (parse_object fuel r2) as [[pairs rest0] |] eqn:Hobj; [| discriminate].
      intros [= <- <-]. destruct (IHobject _ _ _ Hobj) as [Hlen Hmore].
      cbn [length] in *. split; [lia |].
      intros [| fuel'] Hfuel; [lia |].
      cbn [scan_once]. rewrite Hquote, Hbrace, Hr1, Hclose, Hkey.
      rewrite Hmore by lia. reflexivity. }
    destruct (c =? 91) eqn:Hbracket.
    { pose proof (skip_ws_length r) as Hws.
      destruct (skip_ws r) as [| q r2] eqn:Hr1; [discriminate |].
      destruct (q =? 93) eqn:Hclose.
      { intros [= <- <-]. cbn [length] in *. split; [lia |].
        intros [| fuel'] Hfuel; [lia |].
        cbn [scan_once]. rewrite Hquote, Hbrace, Hbracket, Hr1, Hclose. reflexivity. }
      destruct (parse_array fuel (q :: r2)) as [[values rest0] |] eqn:Harr;
        [| discriminate].
      intros [= <- <-]. destruct (IHarray _ _ _ Harr) as [Hlen Hmore].
      cbn [length] in *. split; [lia |].
      intros [| fuel'] Hfuel; [lia |].
      cbn [scan_once]. rewrite Hquote, Hbrace, Hbracket, Hr1, Hclose.
      rewrite Hmore by (cbn [length]; lia). reflexivity. }
    intros Hlit.
    assert (Hlen : (length rest < length (c :: r))%nat).
    { repeat match type of Hlit with
             | context [after_word ?w ?s] =>
                 let H := fresh "Hword" in
                 destruct (after_word w s) eqn:H;
                 [apply after_word_length in H; simpl (length (py _)) in H |];
                 cbv iota in Hlit
             | context [match_number ?s] =>
                 let H := fresh "Hnum" in
                 destruct (match_number s) as [[? ?] |] eqn:H;
                 [apply match_number_length in H |];
                 cbv iota in Hlit
             end;
        try discriminate; injection Hlit as <- <-; cbn [length] in *; lia. }
    split; [exact Hlen |].
    intros [| fuel'] Hfuel; [lia |].
    cbn [scan_once]. rewrite Hquote, Hbrace, Hbracket. exact Hlit.
  - (* parse_array *)
    cbn [parse_array].
    destruct (scan_once fuel s) as [[value rest0] |] eqn:Hscan; [| discriminate].
    destruct (IHscan _ _ _ Hscan) as [Hlen Hmore].
    pose proof (skip_ws_length rest0) as Hws.
    destruct (skip_ws rest0) as [| c r] eqn:Hrest0; [discriminate |].
    cbn [length] in Hws.
    destruct (c =? 93) eqn:Hclose.
    { intros [= <- <-]. split; [lia |].
      intros [| fuel'] Hfuel; [lia |].
      cbn [parse_array]. rewrite Hmore by lia. rewrite Hrest0, Hclose. reflexivity. }
    destruct (c =? 44) eqn:Hcomma; [| discriminate].
    pose proof (skip_ws_length r) as Hws'.
    destruct (parse_array fuel (skip_ws r)) as [[values rest'] |] eqn:Harr;
      [| discriminate].
    intros [= <- <-]. destruct (IHarray _ _ _ Harr) as [Hlen' Hmore'].
    split; [lia |].
    intros [| fuel'] Hfuel; [lia |].
    cbn [parse_array]. rewrite Hmore by lia. rewrite Hrest0, Hclose, Hcomma.
    rewrite Hmore' by lia. reflexivity.
  - (* parse_object *)
    cbn [parse_object].
    destruct (scanstring s) as [[key rest0] |] eqn:Hkey; [| discriminate].
    apply scanstring_length in Hkey as Hlen0.
    pose proof (skip_ws_length rest0) as Hws0.
    destruct (skip_ws rest0) as [| c r] eqn:Hrest0; [discriminate |].
    cbn [length] in Hws0.
    destruct (c =? 58) eqn:Hcolon; [| discriminate].
    pose proof (skip_ws_length r) as Hws1.
    destruct (scan_once fuel (skip_ws r)) as [[value rest1] |] eqn:Hscan;
      [| discriminate].
    destruct (IHscan _ _ _ Hscan) as [Hlen1 Hmore1].
    pose proof (skip_ws_length rest1) as Hws2.
    destruct (skip_ws rest1) as [| d r1] eqn:Hrest1; [discriminate |].
    cbn [length] in Hws2.
    destruct (d =? 125) eqn:Hclose.
    { intros [= <- <-]. split; [lia |].
      intros [| fuel'] Hfuel; [lia |].
      cbn [parse_object]. rewrite Hkey, Hrest0, Hcolon.
      rewrite Hmore1 by lia. rewrite Hrest1, Hclose. reflexivity. }
    destruct (d =? 44) eqn:Hcomma; [| discriminate].
    pose proof (skip_ws_length r1) as Hws3.
    destruct (skip_ws r1) as [| q r2] eqn:Hr1; [discriminate |].
    cbn [length] in Hws3.
    destruct (q =? 34) eqn:Hquote; [| discriminate].
    destruct (parse_object fuel r2) as [[pairs rest'] |] eqn:Hobj; [| discriminate].
    intros [= <- <-]. destruct (IHobject _ _ _ Hobj) as [Hlen' Hmore'].
    split; [lia |].
    intros [| fuel'] Hfuel; [lia |].
    cbn [parse_object]. rewrite Hkey, Hrest0, Hcolon.
    rewrite Hmore1 by lia. rewrite Hrest1, Hclose, Hcomma, Hr1, Hquote.
    rewrite Hmore' by lia. reflexivity.
Qed.

(** The fuel [json_loads] gives the decoder never runs out: a text that
    the decoder reads with some fuel is read by [json_loads]. *)
Lemma json_loads_fuel fuel s obj rest :
  scan_once fuel (skip_ws s) = Some (obj, rest) -> skip_ws rest = [] ->
  json_loads s = Some obj.
Proof.
  intros Hscan Hrest. unfold json_loads.
  destruct (decoder_fuel_enough fuel) as (Henough & _ & _).
  destruct (Henough _ _ _ Hscan) as [_ Hmore].
  rewrite Hmore by (pose proof (skip_ws_length s); lia).
  rewrite Hrest. reflexivity.
Qed.

(** ** Persistence *)

Lemma json_safe_store_of books :
  forallb record_safe books = true -> json_safe (store_of books) = true.
Proof.
  intros H. unfold store_of. cbn [json_safe].
  induction books as [| b books IH]; [reflexivity |].
  cbn [forallb map] in *. apply andb_true_iff in H as [Hb Hbooks].
  rewrite IH by exact Hbooks. rewrite andb_true_r.
  unfold record_safe in Hb.
  apply andb_true_iff in Hb as [Hb H4].
  apply andb_true_iff in Hb as [Hb H3].
  apply andb_true_iff in Hb as [H1 H2].
  unfold record_dict. cbn [json_safe forallb fst snd map].
  rewrite H1, H2, H3, H4. vm_compute. reflexivity.
Qed.

Lemma save_books_state env st :
  save_books env st
  = (Return tt,
     mkState (books_store st)
       (<[filename := json_dumps (num_json env) (books_store st)]> (fs st))
       (stdout st ++ [py "Books saved successfully!"])).
Proof.
  unfold save_books, bind, get_store, open_w, file_write, print.
  cbn [books_store fs stdout].
  rewrite lookup_insert_eq, insert_insert_eq. reflexivity.
Qed.

Lemma load_books_loaded st text v :
  fs st !! filename = Some text -> json_loads text = Some v ->
  load_books st
  = (Return tt, mkState v (fs st) (stdout st ++ [py "Books loaded successfully!"])).
Proof.
  intros Hfile Hjson.
  unfold load_books, try_except, bind, read_file, json_load.
  rewrite Hfile, Hjson. reflexivity.
Qed.

(** C1 (amended).  Persistence round trip: for every store that is a list
    of records with string fields, none of which holds a high surrogate
    code point directly followed by a low surrogate code point,
    [save_books] followed by [load_books] returns normally and leaves a
    store equal to the original, with the same records in the same order. *)
Theorem save_load_roundtrip env st books :
  books_store st = store_of books ->
  forallb record_safe books = true ->
  fst (save_books env st) = Return tt /\
  fst (load_books (snd (save_books env st))) = Return tt /\
  books_store (snd (load_books (snd (save_books env st)))) = store_of books.
Proof.
  intros Hstore Hsafe. rewrite save_books_state. cbn [fst snd].
  erewrite load_books_loaded;
    [| cbn [fs]; apply lookup_insert_eq
     | apply json_loads_dumps; rewrite Hstore; apply json_safe_store_of, Hsafe].
  rewrite Hstore. auto.
Qed.

Lemma save_load_roundtrip_witness :
  fst (save_books sample_env (mkState (store_of [moby; emma]) ∅ [])) = Return tt /\
  fst (load_books (snd (save_books sample_env (mkState (store_of [moby; emma]) ∅ []))))
  = Return tt /\
  books_store
    (snd (load_books (snd (save_books sample_env (mkState (store_of [moby; emma]) ∅ [])))))
  = store_of [moby; emma].
Proof.
  apply (save_load_roundtrip sample_env (mkState (store_of [moby; emma]) ∅ [])
           [moby; emma]); reflexivity.
Defined.

Lemma save_load_surrogate_pair :
  books_store
    (snd (load_books
            (snd (save_books sample_env (mkState (store_of [surrogates]) ∅ [])))))
  <> store_of [surrogates].
Proof.
  vm_compute. discriminate.
Qed.

(** What comes back is the record with the two code points joined. *)
Lemma save_load_surrogate_pair_joined :
  books_store
    (snd (load_books
            (snd (save_books sample_env (mkState (store_of [surrogates]) ∅ [])))))
  = store_of [mkBook [0x1f600] (py "a") (py "2024") (py "books/a.pdf")].
Proof. vm_compute. reflexivity. Qed.



Lemma load_books_never_raises st : fst (load_books st) = Return tt.
Proof.
  unfold load_books, try_except, bind, read_file, json_load.
  destruct (fs st !! filename) as [text |]; [| reflexivity].
  destruct (json_loads text); reflexivity.
Qed.

(** ** Adding a book *)

Lemma add_books_invalid env title author date url st :
  validators_url env url = false ->
  add_books env title author date url st
  = (Return tt,
     mkState (books_store st) (fs st)
       (stdout st ++ [py "Invalid URL. Please enter a valid URL."])).
Proof. intros H. unfold add_books. rewrite H. reflexivity. Qed.

Lemma add_books_failed env title author date url st response :
  validators_url env url = true ->
  requests_get env url = Some response ->
  status_code response <> 200%Z ->
  add_books env title author date url st
  = (Return tt,
     mkState (books_store st) (fs st)
       (stdout st ++ [py "Failed to download the book."])).
Proof.
  intros Hvalid Hget Hcode. unfold add_books. rewrite Hvalid, Hget.
  rewrite (proj2 (Z.eqb_neq _ _) Hcode). reflexivity.
Qed.

Lemma add_books_downloaded env title author date url st response items :
  validators_url env url = true ->
  requests_get env url = Some response ->
  status_code response = 200%Z ->
  books_store st = PList items ->
  let file_name := path_join books_directory (basename url) in
  add_books env title author date url st
  = (Return tt,
     mkState
       (PList (items ++ [record_dict (mkBook title author date file_name)]))
       (<[file_name := content response]> (fs st))
       (stdout st
        ++ [py "Book downloaded and saved as '" ++ file_name ++ py "'";
            py "You have successfully added '" ++ title ++ py "' to your Library"])).
Proof.
  intros Hvalid Hget Hcode Hstore file_name. unfold add_books.
  rewrite Hvalid, Hget, Hcode. cbn [negb Z.eqb Pos.eqb].
  unfold bind, open_w, file_write, print, get_store, set_store, lift_result.
  cbn [books_store fs stdout]. rewrite Hstore. cbn [append].
  rewrite lookup_insert_eq, insert_insert_eq. cbn [default app].
  fold file_name.
  change (getitem _ (py "title")) with (@Return exception _ (PStr title)).
  cbv iota. cbn [py_str]. rewrite <- app_assoc. reflexivity.
Qed.

(** C9.  Add atomicity on failure: when the URL fails validation, or the
    download answers with a status code other than 200, [add_books]
    returns early and leaves the book store (and the file system)
    unchanged. *)
Theorem add_books_failure_keeps_store env title author date url st :
  (validators_url env url = false
   \/ exists response,
        requests_get env url = Some response /\ status_code response <> 200%Z) ->
  fst (add_books env title author date url st) = Return tt /\
  books_store (snd (add_books env title author date url st)) = books_store st /\
  fs (snd (add_books env title author date url st)) = fs st.
Proof.
  intros Hfail.
  destruct (validators_url env url) eqn:Hvalid.
  - destruct Hfail as [Hfalse | (response & Hget & Hcode)]; [discriminate |].
    rewrite (add_books_failed env title author date url st response) by assumption.
    auto.
  - rewrite add_books_invalid by assumption. auto.
Qed.

Lemma add_books_failure_keeps_store_witness :
  let st := mkState (store_of [moby]) ∅ [] in
  let url := py "http://example.org/missing.pdf" in
  fst (add_books sample_env (py "Emma") (py "Jane Austen") (py "1815") url st)
  = Return tt /\
  books_store (snd (add_books sample_env (py "Emma") (py "Jane Austen") (py "1815") url st))
  = store_of [moby] /\
  fs (snd (add_books sample_env (py "Emma") (py "Jane Austen") (py "1815") url st)) = ∅.
Proof.
  refine (add_books_failure_keeps_store sample_env (py "Emma") (py "Jane Austen")
            (py "1815") (py "http://example.org/missing.pdf")
            (mkState (store_of [moby]) ∅ []) _).
  right. eexists. split; [reflexivity |]. vm_compute. discriminate.
Defined.

Lemma add_books_store_cases env title author date url st :
  let st' := snd (add_books env title author date url st) in
  let new_book :=
    PDict [(py "title", PStr title); (py "author", PStr author);
           (py "year", PStr date);
           (py "file_path", PStr (path_join books_directory (basename url)))] in
  books_store st' = books_store st
  \/ exists items,
       books_store st = PList items /\ books_store st' = PList (items ++ [new_book]).
Proof.
  intros st' new_book. subst st'.
  destruct (validators_url env url) eqn:Hvalid;
    [| rewrite add_books_invalid by assumption; left; reflexivity].
  destruct (requests_get env url) as [response |] eqn:Hget;
    [| unfold add_books; rewrite Hvalid, Hget; left; reflexivity].
  destruct (Z.eq_dec (status_code response) 200%Z) as [Hcode | Hcode];
    [| rewrite (add_books_failed env title author date url st response) by assumption;
       left; reflexivity].
  destruct (books_store st) as [| | | | items |] eqn:Hstore;
    try (left; unfold add_books; rewrite Hvalid, Hget, Hcode;
         unfold bind, open_w, file_write, print, get_store, set_store, lift_result;
         cbn [books_store fs stdout negb Z.eqb Pos.eqb]; rewrite Hstore;
         reflexivity).
  right. exists items. split; [reflexivity |].
  rewrite (add_books_downloaded env title author date url st response items)
    by assumption.
  reflexivity.
Qed.




(** ** Linear search by title *)

Lemma py_eq_str a b : py_eq (PStr a) (PStr b) = bool_decide (a = b).
Proof. reflexivity. Qed.

Lemma getitem_title b : getitem (record_dict b) (py "title") = Return (PStr (title b)).
Proof. reflexivity. Qed.

Lemma getitem_author b : getitem (record_dict b) (py "author") = Return (PStr (author b)).
Proof. reflexivity. Qed.

Lemma getitem_year b : getitem (record_dict b) (py "year") = Return (PStr (year b)).
Proof. reflexivity. Qed.

Lemma getitem_file_path b :
  getitem (record_dict b) (py "file_path") = Return (PStr (file_path b)).
Proof. reflexivity. Qed.

Section Search.
Variable env : Env.
Variable t : pystr.

Lemma remove_book_loop_skip pre :
  Forall (fun b => title b <> t) pre ->
  forall i rest st,
    remove_book_loop t i (map record_dict pre ++ rest) st
    = remove_book_loop t (i + length pre) rest st.
Proof.
  induction 1 as [| b pre Hb Hpre IH]; intros i rest st.
  - cbn [map app length]. rewrite Nat.add_0_r. reflexivity.
  - cbn [map app length remove_book_loop]. unfold bind at 1, lift_result at 1.
    rewrite getitem_title, py_eq_str.
    rewrite bool_decide_eq_false_2 by congruence.
    rewrite IH. f_equal. lia.
Qed.

Lemma read_book_loop_skip pre :
  Forall (fun b => title b <> t) pre ->
  forall rest st,
    read_book_loop env t (map record_dict pre ++ rest) st
    = read_book_loop env t rest st.
Proof.
  induction 1 as [| b pre Hb Hpre IH]; intros rest st; [reflexivity |].
  cbn [map app read_book_loop]. unfold bind at 1, lift_result at 1.
  rewrite getitem_title, py_eq_str.
  rewrite bool_decide_eq_false_2 by congruence.
  apply IH.
Qed.

Lemma edit_book_loop_skip i1 i2 i3 i4 all pre :
  Forall (fun b => title b <> t) pre ->
  forall i rest st,
    edit_book_loop t i1 i2 i3 i4 all i (map record_dict pre ++ rest) st
    = edit_book_loop t i1 i2 i3 i4 all (i + length pre) rest st.
Proof.
  induction 1 as [| b pre Hb Hpre IH]; intros i rest st.
  - cbn [map app length]. rewrite Nat.add_0_r. reflexivity.
  - cbn [map app length edit_book_loop]. unfold bind at 1, lift_result at 1.
    rewrite getitem_title, py_eq_str.
    rewrite bool_decide_eq_false_2 by congruence.
    rewrite IH. f_equal. lia.
Qed.
End Search.

(** ** Blank inputs *)

Lemma lstrip_nil s : lstrip s = [] <-> blank s = true.
Proof.
  unfold blank. induction s as [| c s IH]; [tauto |].
  cbn [lstrip forallb]. destruct (isspace c); [exact IH |].
  split; discriminate.
Qed.

Lemma lstrip_head s c r : lstrip s = c :: r -> isspace c = false /\ c ∈ s.
Proof.
  induction s as [| a s IH]; [discriminate |].
  cbn [lstrip]. destruct (isspace a) eqn:Ha.
  - intros H. destruct (IH H) as [? ?]. split; [assumption | by right].
  - intros [= -> ->]. split; [assumption | by left].
Qed.

Lemma blank_rev s : blank (rev s) = blank s.
Proof.
  unfold blank. apply eq_true_iff_eq. rewrite !forallb_forall.
  split; intros H x Hx; apply H; [apply in_rev in Hx | apply in_rev]; exact Hx.
Qed.

Lemma strip_nil s : strip s = [] <-> blank s = true.
Proof.
  unfold strip, rstrip. rewrite lstrip_nil. split.
  - intros H. rewrite <- blank_rev. apply lstrip_nil.
    destruct (lstrip (rev s)) as [| c r] eqn:Hl; [reflexivity |].
    apply lstrip_head in Hl as [Hc _].
    rewrite blank_rev in H. cbn in H. rewrite Hc in H. discriminate.
  - intros H. rewrite <- blank_rev in H. apply lstrip_nil in H.
    rewrite H. reflexivity.
Qed.

Lemma str_or_strip cur inp :
  str_or (strip inp) (PStr cur) = PStr (edited_field cur inp).
Proof.
  unfold edited_field. destruct (blank inp) eqn:Hb.
  - apply strip_nil in Hb. rewrite Hb. reflexivity.
  - destruct (strip inp) eqn:Hs; [| reflexivity].
    apply strip_nil in Hs. congruence.
Qed.

(** ** Editing the first match *)

Lemma assign_title b new st :
  assign_if_changed (record_dict b) (py "title") (PStr new) st
  = (Return (record_dict (mkBook new (author b) (year b) (file_path b))), st).
Proof.
  unfold assign_if_changed, bind, lift_result. rewrite getitem_title, py_eq_str.
  destruct (bool_decide_reflect (new = title b)) as [-> |]; [destruct b |];
    reflexivity.
Qed.

Lemma assign_author b new st :
  assign_if_changed (record_dict b) (py "author") (PStr new) st
  = (Return (record_dict (mkBook (title b) new (year b) (file_path b))), st).
Proof.
  unfold assign_if_changed, bind, lift_result. rewrite getitem_author, py_eq_str.
  destruct (bool_decide_reflect (new = author b)) as [-> |]; [destruct b |];
    reflexivity.
Qed.

Lemma assign_year b new st :
  assign_if_changed (record_dict b) (py "year") (PStr new) st
  = (Return (record_dict (mkBook (title b) (author b) new (file_path b))), st).
Proof.
  unfold assign_if_changed, bind, lift_result. rewrite getitem_year, py_eq_str.
  destruct (bool_decide_reflect (new = year b)) as [-> |]; [destruct b |];
    reflexivity.
Qed.

Lemma assign_file_path b new st :
  assign_if_changed (record_dict b) (py "file_path") (PStr new) st
  = (Return (record_dict (mkBook (title b) (author b) (year b) new)), st).
Proof.
  unfold assign_if_changed, bind, lift_result. rewrite getitem_file_path, py_eq_str.
  destruct (bool_decide_reflect (new = file_path b)) as [-> |]; [destruct b |];
    reflexivity.
Qed.

Lemma bind_lift_return {E A B} (x : A) (k : A -> M E B) st :
  bind (lift_result (Return x)) k st = k x st.
Proof. reflexivity. Qed.

Lemma bind_returns {E A B} (m : M E A) (k : A -> M E B) st a st' :
  m st = (Return a, st') -> bind m k st = k a st'.
Proof. intros H. unfold bind. rewrite H. reflexivity. Qed.

Lemma edit_book_loop_found i1 i2 i3 i4 all i b post st :
  edit_book_loop (title b) i1 i2 i3 i4 all i (record_dict b :: post) st
  = (Return tt,
     mkState (PList (<[i := record_dict (edited b i1 i2 i3 i4)]> all)) (fs st)
       (stdout st ++ [py "Book details updated successfully!"])).
Proof.
  cbn [edit_book_loop].
  rewrite getitem_title, getitem_author, getitem_year, getitem_file_path.
  rewrite bind_lift_return, py_eq_str.
  rewrite bool_decide_eq_true_2 by reflexivity.
  rewrite !bind_lift_return, !str_or_strip.
  erewrite bind_returns by apply assign_title.
  erewrite bind_returns by apply assign_author.
  erewrite bind_returns by apply assign_year.
  erewrite bind_returns by apply assign_file_path.
  reflexivity.
Qed.

Lemma edit_book_first_match t i1 i2 i3 i4 pre b post fs0 out :
  Forall (fun x => title x <> t) pre -> title b = t ->
  edit_book t i1 i2 i3 i4 (mkState (store_of (pre ++ b :: post)) fs0 out)
  = (Return tt,
     mkState (store_of (pre ++ edited b i1 i2 i3 i4 :: post)) fs0
       (out ++ [py "Book details updated successfully!"])).
Proof.
  intros Hpre <-. unfold edit_book, get_store, store_of, bind.
  cbn [books_store py_iter lift_result].
  rewrite map_app. cbn [map].
  rewrite edit_book_loop_skip by exact Hpre. rewrite edit_book_loop_found.
  cbn [fs stdout Nat.add]. do 3 f_equal.
  rewrite <- (length_map record_dict pre), <- (Nat.add_0_r (length (map _ pre))).
  rewrite insert_app_r. rewrite map_app. reflexivity.
Qed.

(** ** The three searches *)

Lemma app_nil_end_map (pre : list BookRecord) :
  map record_dict pre = map record_dict pre ++ [].
Proof. rewrite app_nil_r. reflexivity. Qed.

Lemma remove_book_first_match t pre b post fs0 out :
  Forall (fun x => title x <> t) pre -> title b = t ->
  remove_book t (mkState (store_of (pre ++ b :: post)) fs0 out)
  = (Return tt,
     mkState (store_of (pre ++ post)) fs0
       (out ++ [py "Book '" ++ t ++ py "' deleted successfully!"])).
Proof.
  intros Hpre <-. unfold remove_book, get_store, store_of, bind at 1 2.
  cbn [books_store py_iter lift_result].
  rewrite map_app. cbn [map]. rewrite remove_book_loop_skip by exact Hpre.
  cbn [remove_book_loop Nat.add].
  rewrite getitem_title, bind_lift_return, py_eq_str.
  rewrite bool_decide_eq_true_2 by reflexivity.
  unfold bind, get_store, set_store, print, lift_result, delitem.
  cbn [books_store fs stdout].
  rewrite length_app, length_map. cbn [length].
  rewrite (proj2 (Nat.ltb_lt _ _)) by lia.
  rewrite <- (length_map record_dict pre), delete_middle, map_app. reflexivity.
Qed.

Lemma remove_book_not_found t books fs0 out :
  Forall (fun x => title x <> t) books ->
  remove_book t (mkState (store_of books) fs0 out)
  = (Return tt,
     mkState (store_of books) fs0
       (out ++ [py "Book with title '" ++ t ++ py "' not found."])).
Proof.
  intros Hall. unfold remove_book, get_store, store_of, bind at 1 2.
  cbn [books_store py_iter lift_result].
  rewrite app_nil_end_map, remove_book_loop_skip by exact Hall.
  rewrite app_nil_r. reflexivity.
Qed.

Lemma edit_book_not_found t i1 i2 i3 i4 books fs0 out :
  Forall (fun x => title x <> t) books ->
  edit_book t i1 i2 i3 i4 (mkState (store_of books) fs0 out)
  = (Return tt,
     mkState (store_of books) fs0 (out ++ [py "Book title not found."])).
Proof.
  intros Hall. unfold edit_book, get_store, store_of, bind.
  cbn [books_store py_iter lift_result].
  rewrite (app_nil_end_map books) at 2.
  rewrite edit_book_loop_skip by exact Hall. reflexivity.
Qed.

Lemma read_book_first_match env t pre b post fs0 out :
  Forall (fun x => title x <> t) pre -> title b = t ->
  read_book env t (mkState (store_of (pre ++ b :: post)) fs0 out)
  = read_book_found env t (PStr (file_path b))
      (mkState (store_of (pre ++ b :: post)) fs0 out).
Proof.
  intros Hpre <-. unfold read_book, get_store, store_of, bind at 1 2.
  cbn [books_store py_iter lift_result].
  rewrite map_app. cbn [map]. rewrite read_book_loop_skip by exact Hpre.
  cbn [read_book_loop].
  rewrite getitem_title, getitem_file_path, bind_lift_return, py_eq_str.
  rewrite bool_decide_eq_true_2 by reflexivity.
  rewrite bind_lift_return. reflexivity.
Qed.


(** [read_book] never changes the book store. *)
Lemma read_book_found_store env t file_path st :
  fst (read_book_found env t file_path st) = Return tt /\
  books_store (snd (read_book_found env t file_path st)) = books_store st.
Proof.
  unfold read_book_found, try_except, read_book_try.
  destruct file_path as [| | | path | |]; try (split; reflexivity).
  destruct (endswith path (py ".pdf")).
  - unfold bind, stat, lift_result, print, open_w, file_write.
    destruct (fitz_open env path (fs st !! path)) as [pages | []];
      try (split; reflexivity).
    cbn [books_store fs stdout].
    destruct (extract_pages env pages []) as [txt | []]; split; reflexivity.
  - destruct (endswith path (py ".docx")); [| split; reflexivity].
    unfold bind, stat, lift_result, print, open_w, file_write.
    destruct (docx_Document env path (fs st !! path)) as [paras | []];
      split; reflexivity.
Qed.



(** C10.  Edit keeps blanks and frames other records: [edit_book] on the
    first record [b] whose title is the input gives each of the four
    fields the stripped text typed for it, or keeps the current value
    when that text is empty or only whitespace ([edited]); the records
    at every other index are left as they are. *)
Theorem edit_book_keeps_blank_fields t in_title in_author in_date in_path
    pre b post fs0 out :
  Forall (fun x => title x <> t) pre -> title b = t ->
  let b' := edited b in_title in_author in_date in_path in
  edit_book t in_title in_author in_date in_path
    (mkState (store_of (pre ++ b :: post)) fs0 out)
  = (Return tt,
     mkState (store_of (pre ++ b' :: post)) fs0
       (out ++ [py "Book details updated successfully!"]))
  /\ (forall i, i <> length pre ->
                (pre ++ b' :: post) !! i = (pre ++ b :: post) !! i)
  /\ (forall cur inp, blank inp = true -> edited_field cur inp = cur)
  /\ (forall cur inp, blank inp = false -> edited_field cur inp = strip inp)
  /\ (forall inp, blank inp = true <-> strip inp = []).
Proof.
  intros Hpre Hb b'. split; [apply edit_book_first_match; assumption |].
  split; [| split; [| split]].
  - intros i Hi. destruct (Nat.lt_ge_cases i (length pre)) as [Hlt | Hge].
    + rewrite !lookup_app_l by exact Hlt. reflexivity.
    + rewrite !lookup_app_r by exact Hge.
      destruct (i - length pre)%nat as [| k] eqn:Hk; [lia | reflexivity].
  - intros cur inp Hblank. unfold edited_field. rewrite Hblank. reflexivity.
  - intros cur inp Hblank. unfold edited_field. rewrite Hblank. reflexivity.
  - intros inp. symmetry. apply strip_nil.
Qed.

Lemma edit_book_keeps_blank_fields_witness :
  edit_book (py "Moby Dick") [32; 9] (py "  Melville ") [] (py "books/md.pdf")
    (mkState (store_of [emma; moby; moby_reprint]) ∅ [])
  = (Return tt,
     mkState
       (store_of [emma;
                  mkBook (py "Moby Dick") (py "Melville") (py "1851") (py "books/md.pdf");
                  moby_reprint])
       ∅ [py "Book details updated successfully!"]).
Proof.
  refine (proj1 (edit_book_keeps_blank_fields (py "Moby Dick") [32; 9]
                   (py "  Melville ") [] (py "books/md.pdf") [emma] moby
                   [moby_reprint] ∅ [] _ eq_refl)).
  repeat constructor. vm_compute. discriminate.
Defined.

(** ** Reading a book *)

Lemma page_text_blank env page :
  page_text env page
  = if blank (get_text page) then image_to_string env (page_image page)
    else Return (get_text page).
Proof.
  unfold page_text. destruct (blank (get_text page)) eqn:Hb.
  - rewrite bool_decide_eq_true_2 by (apply strip_nil; exact Hb). reflexivity.
  - rewrite bool_decide_eq_false_2; [reflexivity |].
    intros Hs. apply strip_nil in Hs. congruence.
Qed.






Lemma endswith_docx_not_pdf path :
  endswith path (py ".docx") = true -> endswith path (py ".pdf") = false.
Proof.
  unfold endswith. intros Hdocx. apply bool_decide_eq_true in Hdocx.
  apply bool_decide_eq_false. intros Hpdf.
  destruct Hdocx as [k1 H1]. destruct Hpdf as [k2 H2].
  apply (f_equal last) in H1. apply (f_equal last) in H2.
  rewrite last_app in H1, H2.
  change (last (py ".docx")) with (Some 120) in H1.
  change (last (py ".pdf")) with (Some 102) in H2.
  congruence.
Qed.





(** ** CSV export *)





(** ** Title uniqueness *)

Lemma store_titles_store_of books :
  store_titles (store_of books) = map (fun b => PStr (title b)) books.
Proof.
  unfold store_titles, store_of, item_titles.
  induction books as [| b books IH]; [reflexivity |].
  cbn [map]. rewrite <- IH. reflexivity.
Qed.

Lemma unique_titles_store_of books :
  unique_titles (store_of books) <-> NoDup (map title books).
Proof.
  unfold unique_titles. rewrite store_titles_store_of.
  rewrite <- (map_map title PStr). split.
  - apply NoDup_fmap_1.
  - apply NoDup_fmap_2. intros x y [= ->]. reflexivity.
Qed.

Lemma first_match_split t books :
  Forall (fun x => title x <> t) books
  \/ exists pre b post,
       books = pre ++ b :: post /\ Forall (fun x => title x <> t) pre /\ title b = t.
Proof.
  induction books as [| b books IH]; [left; constructor |].
  destruct (decide (title b = t)) as [Hb | Hb].
  - right. exists [], b, books. repeat split; [constructor | exact Hb].
  - destruct IH as [Hall | (pre & b' & post & -> & Hpre & Hb')].
    + left. constructor; assumption.
    + right. exists (b :: pre), b', post.
      repeat split; [constructor; assumption | exact Hb'].
Qed.

Lemma view_books_loop_store env items :
  forall i st, books_store (snd (view_books_loop env i items st)) = books_store st.
Proof.
  induction items as [| book items IH]; intros i st; [reflexivity |].
  cbn [view_books_loop]. unfold bind, lift_result.
  destruct (getitem book (py "title")); [| reflexivity].
  destruct (getitem book (py "author")); [| reflexivity].
  destruct (getitem book (py "year")); [| reflexivity].
  destruct (getitem book (py "file_path")); [| reflexivity].
  cbn [print]. rewrite IH. reflexivity.
Qed.

Lemma view_books_store env st :
  books_store (snd (view_books env st)) = books_store st.
Proof.
  unfold view_books, bind, get_store. cbn [books_store].
  destruct (negb (truthy env (books_store st))); [reflexivity |].
  unfold lift_result. destruct (py_iter (books_store st)); [| reflexivity].
  apply view_books_loop_store.
Qed.

Lemma export_rows_store env csv items :
  forall st, books_store (snd (export_rows env csv items st)) = books_store st.
Proof.
  induction items as [| book items IH]; intros st; [reflexivity |].
  cbn [export_rows]. unfold bind, lift_result.
  destruct (row_values book fieldnames); [| reflexivity].
  cbn [file_write]. rewrite IH. reflexivity.
Qed.

Lemma export_as_csv_store env csv st :
  books_store (snd (export_as_csv env csv st)) = books_store st.
Proof.
  unfold export_as_csv, bind at 1, read_file.
  destruct (fs st !! filename) as [text |]; [| reflexivity].
  unfold bind at 1, json_load. destruct (json_loads text) as [v |]; [| reflexivity].
  unfold ret. unfold bind at 1, open_w at 1. unfold bind at 1, file_write at 1.
  unfold bind at 1, lift_result. destruct (py_iter v) as [items |]; [| reflexivity].
  unfold bind.
  match goal with
  | |- context [export_rows env csv items ?s] =>
      pose proof (export_rows_store env csv items s) as Hrows;
      destruct (export_rows env csv items s) as [[] st']
  end; exact Hrows.
Qed.

Lemma read_book_loop_store env t items :
  forall st, books_store (snd (read_book_loop env t items st)) = books_store st.
Proof.
  induction items as [| book items IH]; intros st; [reflexivity |].
  cbn [read_book_loop]. unfold bind, lift_result.
  destruct (getitem book (py "title")) as [x |]; [| reflexivity].
  destruct (py_eq x (PStr t)); [| apply IH].
  destruct (getitem book (py "file_path")) as [f |]; [| reflexivity].
  apply read_book_found_store.
Qed.

Lemma read_book_store env t st :
  books_store (snd (read_book env t st)) = books_store st.
Proof.
  unfold read_book, bind, get_store, lift_result.
  destruct (py_iter (books_store st)); [| reflexivity].
  apply read_book_loop_store.
Qed.

Lemma NoDup_replace_middle (l1 l2 : list pystr) x y :
  NoDup (l1 ++ x :: l2) -> y ∉ l1 ++ x :: l2 -> NoDup (l1 ++ y :: l2).
Proof.
  rewrite !NoDup_app, !NoDup_cons. intros (H1 & Hdisj & Hx & H2) Hy.
  rewrite elem_of_app, elem_of_cons in Hy.
  repeat split; try assumption.
  - intros z Hz Hin. apply elem_of_cons in Hin as [-> | Hin].
    + apply Hy. by left.
    + apply (Hdisj z Hz). by right.
  - intros Hin. apply Hy. right. by right.
Qed.

Lemma NoDup_delete_middle (l1 l2 : list pystr) x :
  NoDup (l1 ++ x :: l2) -> NoDup (l1 ++ l2).
Proof.
  rewrite !NoDup_app, !NoDup_cons. intros (H1 & Hdisj & Hx & H2).
  repeat split; try assumption.
  intros z Hz Hin. apply (Hdisj z Hz). by right.
Qed.

(** The invariant behind title uniqueness: the store is a list of
    records with distinct titles. *)
Lemma dispatch_keeps_unique env c st books :
  books_store st = store_of books ->
  NoDup (map title books) ->
  fresh_choice c (books_store st) ->
  exists books',
    books_store (snd (dispatch env c st)) = store_of books'
    /\ NoDup (map title books').
Proof.
  intros Hstore Hnd Hfresh. rewrite Hstore in Hfresh.
  destruct c as [t a d u | e i1 i2 i3 i4 | | t | | | t | |]; cbn [dispatch].
  - destruct (add_books_store_cases env t a d u st) as [Hsame | (items & Hitems & Hnew)].
    + exists books. rewrite Hsame. auto.
    + exists (books ++ [mkBook t a d (path_join books_directory (basename u))]).
      rewrite Hnew. rewrite Hstore in Hitems. injection Hitems as <-.
      split; [unfold store_of; rewrite map_app; reflexivity |].
      rewrite map_app. cbn [map]. apply NoDup_app. repeat split.
      * exact Hnd.
      * intros x Hx Hin. apply list_elem_of_singleton in Hin as ->.
        cbn [fresh_choice] in Hfresh. apply Hfresh.
        rewrite store_titles_store_of, <- (map_map title PStr).
        apply list_elem_of_fmap_2. exact Hx.
      * apply NoDup_singleton.
  - destruct st as [store fs0 out]. cbn [books_store] in *. subst store.
    destruct (first_match_split e books)
      as [Hall | (pre & b & post & -> & Hpre & Hb)].
    + exists books. rewrite edit_book_not_found by exact Hall. auto.
    + rewrite edit_book_first_match by assumption.
      eexists. split; [reflexivity |].
      rewrite map_app in *. cbn [map edited title] in *. rewrite Hb in *.
      cbn [fresh_choice] in Hfresh. destruct Hfresh as [-> | Hfresh]; [exact Hnd |].
      apply (NoDup_replace_middle _ _ e); [exact Hnd |].
      intros Hin. apply Hfresh.
      rewrite store_titles_store_of, <- (map_map title PStr).
      apply list_elem_of_fmap_2. rewrite map_app. cbn [map]. rewrite Hb. exact Hin.
  - exists books. rewrite view_books_store. auto.
  - destruct st as [store fs0 out]. cbn [books_store] in *. subst store.
    destruct (first_match_split t books)
      as [Hall | (pre & b & post & -> & Hpre & Hb)].
    + exists books. rewrite remove_book_not_found by exact Hall. auto.
    + rewrite remove_book_first_match by assumption.
      eexists. split; [reflexivity |].
      rewrite map_app in *. cbn [map] in Hnd.
      apply NoDup_delete_middle in Hnd. exact Hnd.
  - exists books. rewrite save_books_state. auto.
  - exists books. rewrite export_as_csv_store. auto.
  - exists books. rewrite read_book_store. auto.
  - exists books. unfold bind. rewrite save_books_state. auto.
  - exists books. auto.
Qed.

Lemma print_menu_state st :
  exists out, print_menu st = (Return tt, mkState (books_store st) (fs st) out).
Proof. eexists. reflexivity. Qed.

Lemma main_loop_keeps_unique env answers :
  forall st books,
    books_store st = store_of books -> NoDup (map title books) ->
    fresh_run env answers st ->
    exists books',
      books_store (snd (main_loop env answers st)) = store_of books'
      /\ NoDup (map title books').
Proof.
  induction answers as [| c rest IH]; intros st books Hstore Hnd Hfresh.
  - exists books. split; [exact Hstore | exact Hnd].
  - cbn [fresh_run] in Hfresh. destruct Hfresh as [Hc Hrest].
    cbn [main_loop].
    destruct (print_menu_state st) as [out Hmenu].
    rewrite (bind_returns _ _ _ _ _ Hmenu). rewrite Hmenu in Hc, Hrest.
    cbn [snd] in Hc, Hrest.
    set (st1 := mkState (books_store st) (fs st) out) in *.
    destruct (dispatch_keeps_unique env c st1 books Hstore Hnd Hc)
      as (books1 & Hstore1 & Hnd1).
    unfold bind.
    destruct c; destruct (dispatch env _ st1) as [[[] | e] st2];
      cbn [fst snd] in *;
      first [apply (IH st2 books1); assumption | exists books1; split; assumption].
Qed.

(** C5 (amended).  Title uniqueness is not enforced by the code; no two
    records have equal titles in the store [main] reaches as long as the
    library it loads has distinct titles, no [add_books] is given a title
    already in the store and no [edit_book] gives a record the title of
    another record. *)
Theorem title_uniqueness_when_fresh env answers fs0 :
  loads_unique fs0 ->
  fresh_run env answers (snd (init (mkState PNone fs0 []))) ->
  unique_titles (books_store (snd (main env answers (mkState PNone fs0 [])))).
Proof.
  intros (books & Hstore & Hnd) Hfresh. unfold main, bind.
  pose proof (load_books_never_raises (snd (set_store (E := exception) (PList [])
                                              (mkState PNone fs0 [])))) as Hret.
  unfold init, bind in Hstore, Hfresh |- *. cbn [set_store snd] in *.
  destruct (load_books _) as [[[] | e] st0]; [| discriminate Hret].
  cbn [snd] in *.
  destruct (main_loop_keeps_unique env answers st0 books Hstore Hnd Hfresh)
    as (books' & Hstore' & Hnd').
  rewrite Hstore'. apply unique_titles_store_of, Hnd'.
Qed.

Lemma title_uniqueness_when_fresh_witness :
  unique_titles (books_store (snd (main sample_env two_titles (mkState PNone ∅ [])))).
Proof.
  apply (title_uniqueness_when_fresh sample_env two_titles ∅).
  - exists []. split; [reflexivity | constructor].
  - repeat split; vm_compute; intros H;
      repeat match goal with
             | H : list_elem_of _ _ |- _ => inversion H; clear H; subst
             | H : _ ∈ _ |- _ => inversion H; clear H; subst
             end.
Defined.

Lemma duplicate_titles_reachable :
  ~ unique_titles
      (books_store (snd (main sample_env same_title_twice (mkState PNone ∅ [])))).
Proof.
  vm_compute. intros H. apply NoDup_cons in H as [Hnot _].
  apply Hnot. left.
Qed.

(** * Further properties of the methods *)

(** ** Viewing *)



(** ** Loading and saving *)




(** X3.  [save_books] followed by [load_books] restores every store made
    of [None], booleans, strings, lists and dictionaries (not only lists
    of book records; the keys of a dictionary are distinct strings, as
    in any Python dictionary), provided no string holds a high surrogate
    directly followed by a low one; both calls return normally. *)
Theorem save_load_any_store env st :
  json_safe (books_store st) = true ->
  fst (save_books env st) = Return tt
  /\ fst (load_books (snd (save_books env st))) = Return tt
  /\ books_store (snd (load_books (snd (save_books env st)))) = books_store st.
Proof.
  intros Hsafe. rewrite save_books_state. cbn [fst snd].
  erewrite load_books_loaded;
    [| cbn [fs]; apply lookup_insert_eq | apply json_loads_dumps, Hsafe].
  auto.
Qed.

Lemma save_load_any_store_witness :
  books_store
    (snd (load_books (snd (save_books sample_env (mkState nested_store ∅ [])))))
  = nested_store.
Proof.
  refine (proj2 (proj2 (save_load_any_store sample_env
                          (mkState nested_store ∅ []) _))).
  vm_compute. reflexivity.
Defined.

(** X4.  [save_books] writes [books.json] and no other file, and saving
    twice in a row leaves the same file system as saving once. *)
Theorem save_books_only_its_file env st :
  (forall path, path <> filename ->
                fs (snd (save_books env st)) !! path = fs st !! path)
  /\ fs (snd (save_books env st)) !! filename
     = Some (json_dumps (num_json env) (books_store st))
  /\ fs (snd (save_books env (snd (save_books env st))))
     = fs (snd (save_books env st)).
Proof.
  rewrite !save_books_state. cbn [snd fs books_store].
  split; [| split].
  - intros path Hpath. apply lookup_insert_ne. congruence.
  - apply lookup_insert_eq.
  - apply insert_insert_eq.
Qed.

(** X5.  Viewing, reading, saving and exporting never change the book
    store, in any state and whatever the store holds. *)
Theorem read_only_methods env st t csv_filename :
  books_store (snd (view_books env st)) = books_store st
  /\ books_store (snd (read_book env t st)) = books_store st
  /\ books_store (snd (save_books env st)) = books_store st
  /\ books_store (snd (export_as_csv env csv_filename st)) = books_store st.
Proof.
  split; [apply view_books_store |].
  split; [apply read_book_store |].
  split; [rewrite save_books_state; reflexivity |].
  apply export_as_csv_store.
Qed.

(** ** Exporting *)









(** ** Stores that are not lists of book records *)

Lemma getitem_missing d key :
  dict_get key d = None -> getitem (PDict d) key = Raise (KeyError key).
Proof. intros H. unfold getitem. rewrite H. reflexivity. Qed.

Lemma getitem_present d key x :
  dict_get key d = Some x -> getitem (PDict d) key = Return x.
Proof. intros H. unfold getitem. rewrite H. reflexivity. Qed.

Lemma bind_lift_raise {E A B} (e : E) (k : A -> M E B) st :
  bind (lift_result (Raise e)) k st = (Raise e, st).
Proof. reflexivity. Qed.

(** X9.  No check of the shape of a record: when a record in front of
    the first match has no [title] key, [remove_book], [edit_book] and
    [read_book] raise [KeyError] for [title] and leave the state as it
    was, whatever follows that record. *)
Theorem search_raises_on_untitled_record env t i1 i2 i3 i4 pre d rest fs0 out :
  Forall (fun x => title x <> t) pre ->
  dict_get (py "title") d = None ->
  let st := mkState (PList (map record_dict pre ++ PDict d :: rest)) fs0 out in
  remove_book t st = (Raise (KeyError (py "title")), st)
  /\ edit_book t i1 i2 i3 i4 st = (Raise (KeyError (py "title")), st)
  /\ read_book env t st = (Raise (KeyError (py "title")), st).
Proof.
  intros Hpre Hd st. subst st. split; [| split].
  - unfold remove_book, get_store, bind at 1 2.
    cbn [books_store py_iter lift_result].
    rewrite remove_book_loop_skip by exact Hpre. cbn [remove_book_loop].
    rewrite (getitem_missing d _ Hd). apply bind_lift_raise.
  - unfold edit_book, get_store, bind at 1 2.
    cbn [books_store py_iter lift_result].
    rewrite edit_book_loop_skip by exact Hpre. cbn [edit_book_loop].
    rewrite (getitem_missing d _ Hd). apply bind_lift_raise.
  - unfold read_book, get_store, bind at 1 2.
    cbn [books_store py_iter lift_result].
    rewrite read_book_loop_skip by exact Hpre. cbn [read_book_loop].
    rewrite (getitem_missing d _ Hd). apply bind_lift_raise.
Qed.

Lemma search_raises_on_untitled_record_witness :
  remove_book (py "Moby Dick")
    (mkState (PList [record_dict emma; untitled_dict; record_dict moby]) ∅ [])
  = (Raise (KeyError (py "title")),
     mkState (PList [record_dict emma; untitled_dict; record_dict moby]) ∅ []).
Proof.
  refine (proj1 (search_raises_on_untitled_record sample_env (py "Moby Dick")
                   [] [] [] [] [emma]
                   [(py "author", PStr (py "Anonymous")); (py "year", PStr (py "1600"));
                    (py "file_path", PStr (py "books/anon.pdf"))]
                   [record_dict moby] ∅ [] _ eq_refl)).
  repeat constructor. vm_compute. discriminate.
Defined.

(** X10.  [edit_book] reads the four fields of the matched record before
    it assigns any: when the record lacks [author], [year] or
    [file_path], it raises [KeyError] for the first missing one and the
    record keeps all its values, whatever was typed. *)
Theorem edit_book_missing_field t i1 i2 i3 i4 pre d rest fs0 out :
  Forall (fun x => title x <> t) pre ->
  dict_get (py "title") d = Some (PStr t) ->
  let st := mkState (PList (map record_dict pre ++ PDict d :: rest)) fs0 out in
  (dict_get (py "author") d = None ->
   edit_book t i1 i2 i3 i4 st = (Raise (KeyError (py "author")), st))
  /\ (forall a, dict_get (py "author") d = Some a ->
                dict_get (py "year") d = None ->
                edit_book t i1 i2 i3 i4 st = (Raise (KeyError (py "year")), st))
  /\ (forall a y, dict_get (py "author") d = Some a ->
                  dict_get (py "year") d = Some y ->
                  dict_get (py "file_path") d = None ->
                  edit_book t i1 i2 i3 i4 st
                  = (Raise (KeyError (py "file_path")), st)).
Proof.
  intros Hpre Ht st. subst st.
  assert (Hloop :
             edit_book t i1 i2 i3 i4
               (mkState (PList (map record_dict pre ++ PDict d :: rest)) fs0 out)
             = edit_book_loop t i1 i2 i3 i4
                 (map record_dict pre ++ PDict d :: rest) (0 + length pre)
                 (PDict d :: rest)
                 (mkState (PList (map record_dict pre ++ PDict d :: rest)) fs0 out)).
  { unfold edit_book, get_store, bind at 1 2.
    cbn [books_store py_iter lift_result].
    rewrite edit_book_loop_skip by exact Hpre. reflexivity. }
  rewrite Hloop. cbn [edit_book_loop].
  rewrite (getitem_present d _ _ Ht), !bind_lift_return, py_eq_str.
  rewrite bool_decide_eq_true_2 by reflexivity.
  split; [| split].
  - intros Ha. rewrite (getitem_missing d _ Ha). apply bind_lift_raise.
  - intros a Ha Hy. rewrite (getitem_present d _ _ Ha), bind_lift_return.
    rewrite (getitem_missing d _ Hy). apply bind_lift_raise.
  - intros a y Ha Hy Hf.
    rewrite (getitem_present d _ _ Ha), bind_lift_return.
    rewrite (getitem_present d _ _ Hy), bind_lift_return.
    rewrite (getitem_missing d _ Hf). apply bind_lift_raise.
Qed.

Lemma edit_book_missing_field_witness :
  edit_book (py "Emma") (py "Emma (1816)") (py "J. Austen") [] []
    (mkState (PList [record_dict moby; authorless_dict]) ∅ [])
  = (Raise (KeyError (py "author")),
     mkState (PList [record_dict moby; authorless_dict]) ∅ []).
Proof.
  refine (proj1 (edit_book_missing_field (py "Emma") (py "Emma (1816)")
                   (py "J. Austen") [] [] [moby]
                   [(py "title", PStr (py "Emma")); (py "year", PStr (py "1815"));
                    (py "file_path", PStr (py "books/emma.docx"))]
                   [] ∅ [] _ eq_refl) eq_refl).
  repeat constructor. vm_compute. discriminate.
Defined.




(** ** Adding, removing and editing together *)





Lemma edited_blank b i1 i2 i3 i4 :
  blank i1 = true -> blank i2 = true -> blank i3 = true -> blank i4 = true ->
  edited b i1 i2 i3 i4 = b.
Proof.
  intros H1 H2 H3 H4. unfold edited, edited_field.
  rewrite H1, H2, H3, H4. destruct b; reflexivity.
Qed.

(** X14.  Answering every prompt of [edit_book] with an empty or blank
    line changes nothing in the store, although the update message is
    printed. *)
Theorem edit_book_blank_inputs t i1 i2 i3 i4 pre b post fs0 out :
  Forall (fun x => title x <> t) pre -> title b = t ->
  blank i1 = true -> blank i2 = true -> blank i3 = true -> blank i4 = true ->
  edit_book t i1 i2 i3 i4 (mkState (store_of (pre ++ b :: post)) fs0 out)
  = (Return tt,
     mkState (store_of (pre ++ b :: post)) fs0
       (out ++ [py "Book details updated successfully!"])).
Proof.
  intros Hpre Hb H1 H2 H3 H4.
  rewrite edit_book_first_match by assumption.
  rewrite edited_blank by assumption. reflexivity.
Qed.

Lemma edit_book_blank_inputs_witness :
  edit_book (py "Emma") [] [32] [9; 32] [10]
    (mkState (store_of [moby; emma]) ∅ [])
  = (Return tt,
     mkState (store_of [moby; emma]) ∅ [py "Book details updated successfully!"]).
Proof.
  refine (edit_book_blank_inputs (py "Emma") [] [32] [9; 32] [10] [moby] emma []
            ∅ [] _ eq_refl eq_refl eq_refl eq_refl eq_refl).
  repeat constructor. vm_compute. discriminate.
Defined.

(** X15.  Renaming moves the record to its new title: after [edit_book]
    gives the first record titled [t] a different title [t'] no record
    before it has, and no other record is titled [t], a search for [t]
    finds nothing and a search for [t'] finds the edited record, which
    [remove_book] then deletes. *)
Theorem edit_then_remove t in_title i2 i3 i4 pre b post fs0 out :
  Forall (fun x => title x <> t) pre -> title b = t ->
  Forall (fun x => title x <> t) post ->
  blank in_title = false -> strip in_title <> t ->
  Forall (fun x => title x <> strip in_title) pre ->
  let st' := snd (edit_book t in_title i2 i3 i4
                    (mkState (store_of (pre ++ b :: post)) fs0 out)) in
  remove_book t st'
  = (Return tt,
     mkState (books_store st') (fs st')
       (stdout st' ++ [py "Book with title '" ++ t ++ py "' not found."]))
  /\ books_store (snd (remove_book (strip in_title) st')) = store_of (pre ++ post).
Proof.
  intros Hpre Hb Hpost Hblank Hnew Hpre' st'. subst st'.
  rewrite edit_book_first_match by assumption. cbn [snd books_store fs stdout].
  assert (Htitle : title (edited b in_title i2 i3 i4) = strip in_title).
  { unfold edited, edited_field. rewrite Hblank. reflexivity. }
  split.
  - apply remove_book_not_found.
    apply Forall_app. split; [exact Hpre |].
    constructor; [rewrite Htitle; exact Hnew | exact Hpost].
  - rewrite remove_book_first_match by assumption. reflexivity.
Qed.

Lemma edit_then_remove_witness :
  books_store
    (snd (remove_book (py "Emma, a novel")
            (snd (edit_book (py "Emma") (py " Emma, a novel ") [] (py "1816") []
                    (mkState (store_of [moby; emma]) ∅ [])))))
  = store_of [moby].
Proof.
  refine (proj2 (edit_then_remove (py "Emma") (py " Emma, a novel ") [] (py "1816") []
                   [moby] emma [] ∅ [] _ eq_refl _ eq_refl _ _)).
  - repeat constructor. vm_compute. discriminate.
  - constructor.
  - vm_compute. discriminate.
  - repeat constructor. vm_compute. discriminate.
Defined.

(** ** Failures while reading a book *)

Lemma extract_pages_raises env pages texts page rest e :
  Forall2 (fun p text => page_text env p = Return text) pages texts ->
  page_text env page = Raise e ->
  forall acc, extract_pages env (pages ++ page :: rest) acc = Raise e.
Proof.
  intros Hpages Hpage.
  induction Hpages as [| p text pages texts Hp _ IH]; intros acc.
  - cbn [app extract_pages]. rewrite Hpage. reflexivity.
  - cbn [app extract_pages]. rewrite Hp. apply IH.
Qed.

(** X16.  For the record that [read_book] finds, every failure of a
    library is caught: a [FileNotFoundError] prints the not-found message
    with the file path, any other exception prints [An error occurred]
    with its text, also when the OCR engine fails on a later page after
    the page count was printed.  [read_book] returns normally, and
    neither the store nor the file system changes: no text file is
    written. *)
Theorem read_book_catches_failures env t pre b post fs0 out :
  Forall (fun x => title x <> t) pre -> title b = t ->
  let st := mkState (store_of (pre ++ b :: post)) fs0 out in
  let path := file_path b in
  let said (lines : list pystr) :=
    (@Return exception unit tt,
     mkState (store_of (pre ++ b :: post)) fs0 (out ++ lines)) in
  (endswith path (py ".pdf") = true ->
   (fitz_open env path (fs0 !! path) = Raise CaughtFileNotFound ->
    read_book env t st = said [py "Book file '" ++ path ++ py "' not found."])
   /\ (forall str_e,
         fitz_open env path (fs0 !! path) = Raise (CaughtException str_e) ->
         read_book env t st = said [py "An error occurred: " ++ str_e])
   /\ (forall pages texts page rest str_e,
         fitz_open env path (fs0 !! path) = Return (pages ++ page :: rest) ->
         Forall2 (fun p text => page_text env p = Return text) pages texts ->
         page_text env page = Raise (CaughtException str_e) ->
         read_book env t st
         = said [py "Reading " ++ t ++ py ": "
                 ++ str_of_nat (length (pages ++ page :: rest))
                 ++ py " pages available." ++ [10];
                 py "An error occurred: " ++ str_e]))
  /\ (endswith path (py ".docx") = true ->
      (docx_Document env path (fs0 !! path) = Raise CaughtFileNotFound ->
       read_book env t st = said [py "Book file '" ++ path ++ py "' not found."])
      /\ (forall str_e,
            docx_Document env path (fs0 !! path) = Raise (CaughtException str_e) ->
            read_book env t st = said [py "An error occurred: " ++ str_e])).
Proof.
  intros Hpre Hb st path said. subst st path said.
  rewrite read_book_first_match by assumption.
  unfold read_book_found, try_except, read_book_try. split.
  - intros Hpdf. rewrite Hpdf.
    unfold bind, stat, lift_result, print. cbn [books_store fs stdout].
    split; [| split].
    + intros Hopen. rewrite Hopen. reflexivity.
    + intros str_e Hopen. rewrite Hopen. reflexivity.
    + intros pages texts page rest str_e Hopen Hpages Hpage. rewrite Hopen.
      rewrite (extract_pages_raises env pages texts page rest _ Hpages Hpage).
      cbn [books_store fs stdout]. rewrite <- app_assoc. reflexivity.
  - intros Hdocx. rewrite (endswith_docx_not_pdf _ Hdocx), Hdocx.
    unfold bind, stat, lift_result, print. cbn [books_store fs stdout].
    split.
    + intros Hopen. rewrite Hopen. reflexivity.
    + intros str_e Hopen. rewrite Hopen. reflexivity.
Qed.

Lemma read_book_catches_failures_witness :
  read_book sample_env (py "Moby Dick") (mkState (store_of [emma; moby]) ∅ [])
  = (Return tt,
     mkState (store_of [emma; moby]) ∅ [py "Book file 'books/moby.pdf' not found."]).
Proof.
  refine (proj1 (proj1 (read_book_catches_failures sample_env (py "Moby Dick")
                          [emma] moby [] ∅ [] _ eq_refl) eq_refl) eq_refl).
  repeat constructor. vm_compute. discriminate.
Defined.

(** ** The menu loop *)

Lemma main_loop_raises env c rest st e st2 :
  dispatch env c (snd (print_menu st)) = (Raise e, st2) ->
  main_loop env (c :: rest) st = (Raise e, st2).
Proof.
  intros Hrun. cbn [main_loop].
  destruct (print_menu_state st) as [out Hmenu].
  rewrite (bind_returns _ _ _ _ _ Hmenu). rewrite Hmenu in Hrun. cbn [snd] in Hrun.
  unfold bind. rewrite Hrun. reflexivity.
Qed.

Lemma main_loop_returns env c rest st st2 :
  dispatch env c (snd (print_menu st)) = (Return tt, st2) ->
  main_loop env (c :: rest) st
  = match c with
    | Exit => (Return tt, st2)
    | _ => main_loop env rest st2
    end.
Proof.
  intros Hrun. cbn [main_loop].
  destruct (print_menu_state st) as [out Hmenu].
  rewrite (bind_returns _ _ _ _ _ Hmenu). rewrite Hmenu in Hrun. cbn [snd] in Hrun.
  rewrite (bind_returns _ _ _ _ _ Hrun). destruct c; reflexivity.
Qed.

(** X17.  [main] has no handler: an exception raised by a method ends
    the loop with the state the method left, and the answers that follow
    are not read.  So choosing the export in a library that was never
    saved ends the program with [FileNotFoundError], and [books.json]
    still does not exist: what was added is lost. *)
Theorem main_loop_ends_at_exception env rest st :
  (forall c e st2,
     dispatch env c (snd (print_menu st)) = (Raise e, st2) ->
     main_loop env (c :: rest) st = (Raise e, st2))
  /\ (fs st !! filename = None ->
      main_loop env (ExportCsv :: rest) st
      = (Raise FileNotFoundError, snd (print_menu st))
      /\ fs (snd (main_loop env (ExportCsv :: rest) st)) !! filename = None).
Proof.
  split; [intros c e st2; apply main_loop_raises |].
  intros Hmissing.
  assert (Hrun : dispatch env ExportCsv (snd (print_menu st))
                 = (Raise FileNotFoundError, snd (print_menu st))).
  { destruct (print_menu_state st) as [out Hmenu]. rewrite Hmenu. cbn [snd dispatch].
    unfold export_as_csv, bind at 1, read_file. cbn [fs].
    rewrite Hmissing. reflexivity. }
  rewrite (main_loop_raises env ExportCsv rest st _ _ Hrun).
  split; [reflexivity |].
  destruct (print_menu_state st) as [out Hmenu]. rewrite Hmenu. exact Hmissing.
Qed.

Lemma main_loop_ends_at_exception_witness :
  fst (main sample_env (two_titles ++ [ExportCsv; Exit]) (mkState PNone ∅ []))
  = Raise FileNotFoundError
  /\ fs (snd (main sample_env (two_titles ++ [ExportCsv; Exit]) (mkState PNone ∅ [])))
     !! filename = None.
Proof.
  pose proof (proj2 (main_loop_ends_at_exception sample_env [Exit]
                       (snd (main sample_env two_titles (mkState PNone ∅ []))))
                eq_refl) as [Hrun Hfile].
  split; [| exact Hfile].
  exact (f_equal fst Hrun).
Defined.

(** X18.  Exit saves, and the next start restores: choosing [Exit] with
    a store of book records, none of whose strings holds a high
    surrogate directly followed by a low one, writes the store to
    [books.json], prints [Exiting...] and ends the loop without reading
    further answers; an [__init__] on the file system it leaves loads a
    store equal to the one at exit. *)
Theorem exit_then_restart env rest st books :
  books_store st = store_of books ->
  forallb record_safe books = true ->
  let st' := snd (main_loop env (Exit :: rest) st) in
  main_loop env (Exit :: rest) st = main_loop env [Exit] st
  /\ fst (main_loop env (Exit :: rest) st) = Return tt
  /\ fs st' = <[filename := json_dumps (num_json env) (store_of books)]> (fs st)
  /\ (exists out, stdout st' = out ++ [py "Books saved successfully!"; py "Exiting..."])
  /\ books_store (snd (init (mkState PNone (fs st') []))) = store_of books.
Proof.
  intros Hstore Hsafe st'.
  destruct (print_menu_state st) as [out Hmenu].
  assert (Hrun : dispatch env Exit (snd (print_menu st))
                 = (Return tt,
                    mkState (store_of books)
                      (<[filename := json_dumps (num_json env) (store_of books)]> (fs st))
                      ((out ++ [py "Books saved successfully!"]) ++ [py "Exiting..."]))).
  { rewrite Hmenu. cbn [snd dispatch]. unfold bind. rewrite save_books_state.
    cbn [books_store fs stdout print]. rewrite Hstore. reflexivity. }
  subst st'. rewrite !(main_loop_returns env Exit _ st _ Hrun). cbn [fst snd fs stdout].
  split; [reflexivity | split; [reflexivity | split; [reflexivity | split]]].
  - exists out. rewrite <- app_assoc. reflexivity.
  - unfold init, bind, set_store. cbn [books_store fs stdout].
    erewrite load_books_loaded;
      [reflexivity | cbn [fs]; apply lookup_insert_eq
       | apply json_loads_dumps, json_safe_store_of, Hsafe].
Qed.

Lemma exit_then_restart_witness :
  books_store
    (snd (init (mkState PNone
                  (fs (snd (main_loop sample_env [Exit; ViewBooks]
                              (mkState (store_of [moby; emma]) ∅ [])))) [])))
  = store_of [moby; emma].
Proof.
  refine (proj2 (proj2 (proj2 (proj2
            (exit_then_restart sample_env [ViewBooks]
               (mkState (store_of [moby; emma]) ∅ []) [moby; emma] eq_refl eq_refl))))).
Defined.
